(** * imklog: the kernel log input module of rsyslog

    A shallow embedding of [plugins/imklog/imklog.c]: the PRI parser
    [parsePRI], the message entry point [Syslog] with its double-PRI
    heuristic, the legacy/v2 configuration merge ([beginCnfLoad],
    [setModCnf], [endCnfLoad], [resetConfigVariables]) and the input loop
    [runInput].

    Conventions of the embedding:
    - a [uchar] is an [ascii]; [code] is its promotion to [int];
    - an [int] is a [Z] kept in the 32-bit two's complement range by
      [wrap_int] after every arithmetic operation;
    - a [uchar*] is an offset ([nat]) into a [buffer], the list of the bytes
      of the object pointed into, its terminator included; a read outside
      the object has no defined result and makes the function return [None];
    - a function with out-parameters returns their final values. *)

From Stdlib Require Import ZArith Ascii String List Bool Lia.
Import ListNotations.
Local Open Scope Z_scope.

(** ** Machine integers and characters *)

Definition INT_MAX : Z := 2147483647.
Definition INT_MIN : Z := -2147483648.

(** Result of an [int] operation: reduction modulo 2^32 into
    [INT_MIN .. INT_MAX]. *)
Definition wrap_int (z : Z) : Z := (z + 2147483648) mod 4294967296 - 2147483648.

Definition int_mul (a b : Z) : Z := wrap_int (a * b).
Definition int_add (a b : Z) : Z := wrap_int (a + b).
Definition int_sub (a b : Z) : Z := wrap_int (a - b).

Definition uchar := ascii.

(** Integer promotion of an [unsigned char]. *)
Definition code (c : uchar) : Z := Z.of_N (N_of_ascii c).

Definition NUL : uchar := zero.

(** [isdigit] of <ctype.h> in the C locale. *)
Definition isdigit (c : uchar) : bool := (48 <=? code c) && (code c <=? 57).

(** ** Buffers and pointers *)

Definition buffer := list uchar.

(** [*(buf + p)] *)
Definition deref (buf : buffer) (p : nat) : option uchar := nth_error buf p.

(** The bytes of a string literal, terminator included. *)
Definition cstr (s : string) : buffer := list_ascii_of_string s ++ [NUL].

(** A buffer that holds a C string up to its last byte. *)
Definition terminated (buf : buffer) : Prop := exists s, buf = s ++ [NUL].

(** [strlen]-delimited contents at [p]: the bytes from [p] up to the first
    NUL; [None] when the scan leaves the object. *)
Fixpoint until_NUL (s : list uchar) : option (list uchar) :=
  match s with
  | [] => None
  | c :: s' =>
      if Ascii.eqb c NUL then Some []
      else match until_NUL s' with
           | Some r => Some (c :: r)
           | None => None
           end
  end.

Definition string_at (buf : buffer) (p : nat) : option (list uchar) :=
  if (p <? length buf)%nat then until_NUL (skipn p buf) else None.

(** ** Return codes *)

Inductive rsRetVal : Type :=
| RS_RET_OK
| RS_RET_INVALID_PRI
| RS_RET_MISSING_CNFPARAMS
| RS_RET_PARAM_NOT_PERMITTED
| RS_RET_OUT_OF_MEMORY
| RS_RET_ERR (n : Z).

Definition rsRetVal_eqb (a b : rsRetVal) : bool :=
  match a, b with
  | RS_RET_OK, RS_RET_OK => true
  | RS_RET_INVALID_PRI, RS_RET_INVALID_PRI => true
  | RS_RET_MISSING_CNFPARAMS, RS_RET_MISSING_CNFPARAMS => true
  | RS_RET_PARAM_NOT_PERMITTED, RS_RET_PARAM_NOT_PERMITTED => true
  | RS_RET_OUT_OF_MEMORY, RS_RET_OUT_OF_MEMORY => true
  | RS_RET_ERR n, RS_RET_ERR m => n =? m
  | _, _ => false
  end.

(** Sequencing of steps that may read outside their object. *)
Notation "x <- e ;; k" :=
  (match e with Some x => k | None => None end)
  (at level 61, e at next level, right associativity).
Notation "' p <- e ;; k" :=
  (match e with Some p => k | None => None end)
  (at level 61, p pattern, e at next level, right associativity).

(** ** parsePRI *)

(** [i * 10 + c - '0'] *)
Definition digit_step (i : Z) (c : uchar) : Z :=
  int_sub (int_add (int_mul i 10) (code c)) (code "0"%char).

(** The loop
    [while (isdigit *pSz) { i = i * 10 + *pSz++ - '0'; }]
    run on the bytes [s] that start at [pSz]; it returns the final [pSz]
    and [i]. *)
Fixpoint scan_digits (s : list uchar) (pSz : nat) (i : Z) : option (nat * Z) :=
  match s with
  | [] => None
  | c :: s' =>
      if isdigit c
      then scan_digits s' (S pSz) (digit_step i c)
      else Some (pSz, i)
  end.

(** [parsePRI(&ppSz, &piPri)]: the result is the return code with the final
    values of [*ppSz] and [*piPri]. *)
Definition parsePRI (buf : buffer) (ppSz : nat) (piPri : Z)
  : option (rsRetVal * nat * Z) :=
  let pSz := ppSz in
  c0 <- deref buf pSz ;;
  if negb (Ascii.eqb c0 "<") then Some (RS_RET_INVALID_PRI, ppSz, piPri)
  else
    c1 <- deref buf (pSz + 1) ;;
    if negb (isdigit c1) then Some (RS_RET_INVALID_PRI, ppSz, piPri)
    else
      let pSz := S pSz in
      '(pSz, i) <- scan_digits (skipn pSz buf) pSz 0 ;;
      c <- deref buf pSz ;;
      if negb (Ascii.eqb c ">") then Some (RS_RET_INVALID_PRI, ppSz, piPri)
      else Some (RS_RET_OK, S pSz, i).

(** *** The format, as the interface describes it *)

(** The decimal value of a run of digits. *)
Definition digit_value (c : uchar) : Z := code c - 48.

Definition decimal_value (ds : list uchar) : Z :=
  fold_left (fun a c => a * 10 + digit_value c) ds 0.

(** What is left of [s] after its leading run of digits. *)
Fixpoint after_digits (s : list uchar) : list uchar :=
  match s with
  | [] => []
  | c :: s' => if isdigit c then after_digits s' else s
  end.

(** The leading run of digits of [s]. *)
Fixpoint leading_digits (s : list uchar) : list uchar :=
  match s with
  | [] => []
  | c :: s' => if isdigit c then c :: leading_digits s' else []
  end.

Definition starts_with (c : uchar) (s : list uchar) : bool :=
  match s with
  | [] => false
  | c' :: _ => Ascii.eqb c' c
  end.

Definition starts_with_digit (s : list uchar) : bool :=
  match s with
  | [] => false
  | c :: _ => isdigit c
  end.

(** The three ways in which the text at the cursor is not a PRI: its first
    character is not '<', or the character after '<' is not a digit, or the
    character after the run of digits is not '>'. *)
Definition pri_format_violation (s : list uchar) : bool :=
  negb (starts_with "<"%char s)
  || negb (starts_with_digit (tl s))
  || negb (starts_with ">"%char (after_digits (tl s))).

(** ** Priorities *)

(** Modelled from the spec: [LOG_FAC], [LOG_PRI] and [LOG_KERN] are macros of
    the system header <syslog.h>, which is not among the sources.  The
    glossary gives a priority as facility*8 + severity; the macros are
    written with the masks the header uses ([LOG_FACMASK] = 0x03f8,
    [LOG_PRIMASK] = 0x07), and [LOG_macros_arith] below relates them to
    division by 8. *)
Definition LOG_PRIMASK : Z := 7.
Definition LOG_FACMASK : Z := 1016.
Definition LOG_PRI (p : Z) : Z := Z.land p LOG_PRIMASK.
Definition LOG_FAC (p : Z) : Z := Z.shiftr (Z.land p LOG_FACMASK) 3.
Definition LOG_KERN : Z := 0.

(** ** Configuration data *)

(** [configSettings_t], the legacy settings [cs]. *)
Module CS.
Record configSettings_t : Type := mk {
  bPermitNonKernel : Z;
  bParseKernelStamp : Z;
  bKeepKernelStamp : Z;
  iFacilIntMsg : Z;
  pszPath : option string;
  console_log_level : Z
}.
End CS.
Definition configSettings_t : Type := CS.configSettings_t.

(** [modConfData_t] (declared in imklog.h), with the fields this file reads
    or sets; the back pointer [pConf] is left out. *)
Module MC.
Record modConfData_t : Type := mk {
  pszPath : option string;
  console_log_level : Z;
  bParseKernelStamp : Z;
  bKeepKernelStamp : Z;
  bPermitNonKernel : Z;
  iFacilIntMsg : Z;
  configSetViaV2Method : Z
}.
End MC.
Definition modConfData_t : Type := MC.modConfData_t.

(** The platform driver supplies the default facility of internal messages. *)
Class KlogDriver : Type := { klogFacilIntMsg : Z }.

(** ** Messages and the daemon *)

Record timeval : Type := { tv_sec : Z; tv_usec : Z }.

Inductive flowControl : Type :=
| eFLOWCTL_NO_DELAY
| eFLOWCTL_LIGHT_DELAY
| eFLOWCTL_FULL_DELAY.

(** What [enqMsg] puts into a [msg_t]; the host name and the sender, which
    it takes from the daemon's globals, are left out. *)
Record msg_t : Type := {
  msgTime : option timeval;
  msgFlowCtlType : flowControl;
  msgInputName : string;
  pszRawMsg : list uchar;
  offMSG : Z;
  msgRcvFromIP : string;
  pszTAG : string;
  iFacility : Z;
  iSeverity : Z
}.

(** The module's two property objects. *)
Definition pInputName : string := "imklog".
Definition pLocalHostIP : string := "127.0.0.1".

(** The daemon's side of the calls [enqMsg] makes: message construction
    ([msgConstruct], or [msgConstructWithTime] when a time is given) and
    [submitMsg], each acting on the daemon's state. *)
Class Daemon (World : Type) : Type := {
  msgConstruct : option timeval -> World -> rsRetVal * World;
  submitMsg : msg_t -> World -> rsRetVal * World
}.

(** ** enqMsg and Syslog *)

Definition enqMsg {World} `{Daemon World}
    (buf : buffer) (msg : nat) (pszTag : string) (iFac iSev : Z)
    (tp : option timeval) (W : World) : option (rsRetVal * World) :=
  let '(iRet, W) := msgConstruct tp W in
  if negb (rsRetVal_eqb iRet RS_RET_OK) then Some (iRet, W)
  else
    raw <- string_at buf msg ;;
    let pMsg := {| msgTime := tp;
                   msgFlowCtlType := eFLOWCTL_LIGHT_DELAY;
                   msgInputName := pInputName;
                   pszRawMsg := raw;
                   offMSG := 0;
                   msgRcvFromIP := pLocalHostIP;
                   pszTAG := pszTag;
                   iFacility := iFac;
                   iSeverity := iSev |} in
    Some (submitMsg pMsg W).

(** The condition [pMsg[3] == '<' || (pMsg[3] == ' ' && pMsg[4] == '<')],
    evaluated left to right. *)
Definition could_be_pri (buf : buffer) (pMsg : nat) : option bool :=
  c3 <- deref buf (pMsg + 3) ;;
  if Ascii.eqb c3 "<" then Some true
  else if Ascii.eqb c3 " "
       then c4 <- deref buf (pMsg + 4) ;; Some (Ascii.eqb c4 "<")
       else Some false.

(** The first half of [Syslog], up to the comment "if we don't get the pri,
    we use whatever we were supplied": it returns whether the function
    goes on (it leaves early on an unexpected code of [parsePRI]) with the
    values of [pMsg], [priority] and [pri] at that point. *)
Definition Syslog_pri (priority : Z) (buf : buffer) (pMsg : nat)
  : option (bool * nat * Z * Z) :=
  let pri := -1 in
  two <- could_be_pri buf pMsg ;;
  '(pMsg, priority, pri) <-
    (if two : bool then
       c3 <- deref buf (pMsg + 3) ;;
       let pMsgTmp := (pMsg + (if Ascii.eqb c3 "<" then 3 else 4))%nat in
       '(localRet, pMsgTmp, pri) <- parsePRI buf pMsgTmp pri ;;
       if rsRetVal_eqb localRet RS_RET_OK && (8 <=? pri) && (pri <=? 192)
       then Some (pMsgTmp, pri, pri)
       else Some (pMsg, priority, pri)
     else Some (pMsg, priority, pri)) ;;
  if pri =? -1 then
    '(localRet, pMsg, priority) <- parsePRI buf pMsg priority ;;
    if negb (rsRetVal_eqb localRet RS_RET_INVALID_PRI)
       && negb (rsRetVal_eqb localRet RS_RET_OK)
    then Some (false, pMsg, priority, pri)
    else Some (true, pMsg, priority, pri)
  else Some (true, pMsg, priority, pri).

(** [Syslog(priority, pMsg, tp)], reading the legacy settings [cs]. *)
Definition Syslog {World} `{Daemon World}
    (cs : configSettings_t) (priority : Z) (buf : buffer) (pMsg : nat)
    (tp : option timeval) (W : World) : option (rsRetVal * World) :=
  let iRet := RS_RET_OK in
  '(go, pMsg, priority, _) <- Syslog_pri priority buf pMsg ;;
  if negb go then Some (iRet, W)
  else if (CS.bPermitNonKernel cs =? 0) && negb (LOG_FAC priority =? LOG_KERN)
  then Some (iRet, W)
  else enqMsg buf pMsg "kernel:" (LOG_FAC priority) (LOG_PRI priority) tp W.

(** ** The input loop *)

(** What the driver obtains from the kernel log for one call of
    [klogLogKMsg]: the text of a line, the priority it passes along as
    default, and the time of the entry if it knows one. *)
Record kernel_line : Type := {
  kl_priority : Z;
  kl_text : buffer;
  kl_time : option timeval
}.

(** One turn of the loop of [runInput], as the module sees it: the value of
    [pThrd->bShallStop] found at the loop head and the line the driver would
    obtain next. *)
Record turn : Type := {
  bShallStop : bool;
  next_kernel_line : kernel_line
}.

(** [runInput]: [while(!pThrd->bShallStop) CHKiRet(klogLogKMsg(runModConf));]
    over the turns the run consists of.  The driver's [klogLogKMsg] is a
    parameter. *)
Fixpoint runInput {World}
    (klogLogKMsg : kernel_line -> World -> option (rsRetVal * World))
    (turns : list turn) (W : World) : option (rsRetVal * World) :=
  match turns with
  | [] => Some (RS_RET_OK, W)
  | t :: turns' =>
      if bShallStop t then Some (RS_RET_OK, W)
      else
        '(iRet, W) <- klogLogKMsg (next_kernel_line t) W ;;
        if negb (rsRetVal_eqb iRet RS_RET_OK) then Some (iRet, W)
        else runInput klogLogKMsg turns' W
  end.

(** Modelled from the spec: the platform driver (bsd.c, linux.c) with its
    [klogLogKMsg] is not among the sources.  By section 6 it is a blocking
    source of lines, each with an optional timestamp; by sections 4.4 and 7
    a failed submission ends the processing of that line only and is not
    passed on to the loop.  So the driver hands the line it obtained to
    [Syslog], at the start of its buffer, and reports success whatever
    [Syslog] returned.  (The diagnostic message section 7 mentions goes to
    the daemon's log, not to the queue, and is left out.) *)
Definition klogLogKMsg {World} `{Daemon World} (cs : configSettings_t)
    (l : kernel_line) (W : World) : option (rsRetVal * World) :=
  '(_, W) <- Syslog cs (kl_priority l) (kl_text l) 0 (kl_time l) W ;;
  Some (RS_RET_OK, W).

(** A driver that passes the return code of [Syslog] on, for comparison. *)
Definition klogLogKMsg_passing {World} `{Daemon World} (cs : configSettings_t)
    (l : kernel_line) (W : World) : option (rsRetVal * World) :=
  Syslog cs (kl_priority l) (kl_text l) 0 (kl_time l) W.

(** ** Configuration load *)

(** The module's globals during a load cycle: the legacy settings [cs], the
    object [loadModConf] points to, and the switch of the legacy
    directives. *)
Record cnfState : Type := {
  cs : configSettings_t;
  loadModConf : modConfData_t;
  bLegacyCnfModGlobalsPermitted : Z
}.

Definition initConfigSettings `{KlogDriver} (c : configSettings_t)
  : configSettings_t :=
  {| CS.bPermitNonKernel := 0;
     CS.bParseKernelStamp := 0;
     CS.bKeepKernelStamp := 0;
     CS.console_log_level := -1;
     CS.pszPath := None;
     CS.iFacilIntMsg := klogFacilIntMsg |}.

Definition resetConfigVariables `{KlogDriver} (c : configSettings_t)
  : rsRetVal * configSettings_t :=
  (RS_RET_OK,
   {| CS.bPermitNonKernel := 0;
      CS.bParseKernelStamp := 0;
      CS.bKeepKernelStamp := 0;
      CS.pszPath := None;
      CS.iFacilIntMsg := klogFacilIntMsg;
      CS.console_log_level := CS.console_log_level c |}).

(** [beginCnfLoad]; [c] is [cs] as the previous cycle left it. *)
Definition beginCnfLoad `{KlogDriver} (c : configSettings_t) : cnfState :=
  {| loadModConf :=
       {| MC.pszPath := None;
          MC.bPermitNonKernel := 0;
          MC.bParseKernelStamp := 0;
          MC.bKeepKernelStamp := 0;
          MC.console_log_level := -1;
          MC.iFacilIntMsg := klogFacilIntMsg;
          MC.configSetViaV2Method := 0 |};
     bLegacyCnfModGlobalsPermitted := 1;
     cs := initConfigSettings c |}.

(** The value of a parameter, [val.d.estr] or [val.d.n]. *)
Inductive cnfval : Type :=
| d_estr (s : string)
| d_n (n : Z).

Record cnfparamvals : Type := { bUsed : bool; val : cnfval }.

Definition val_estr (v : cnfparamvals) : string :=
  match val v with d_estr s => s | d_n _ => EmptyString end.

Definition val_n (v : cnfparamvals) : Z :=
  match val v with d_n n => n | d_estr _ => 0 end.

(** The names in [modpdescr]. *)
Definition modpdescr : list string :=
  ["logpath"; "permitnonkernelfacility"; "consoleloglevel";
   "internalmsgfacility"]%string.

Definition set_pszPath (m : modConfData_t) (v : option string) : modConfData_t :=
  {| MC.pszPath := v;
     MC.console_log_level := MC.console_log_level m;
     MC.bParseKernelStamp := MC.bParseKernelStamp m;
     MC.bKeepKernelStamp := MC.bKeepKernelStamp m;
     MC.bPermitNonKernel := MC.bPermitNonKernel m;
     MC.iFacilIntMsg := MC.iFacilIntMsg m;
     MC.configSetViaV2Method := MC.configSetViaV2Method m |}.

Definition set_bPermitNonKernel (m : modConfData_t) (v : Z) : modConfData_t :=
  {| MC.pszPath := MC.pszPath m;
     MC.console_log_level := MC.console_log_level m;
     MC.bParseKernelStamp := MC.bParseKernelStamp m;
     MC.bKeepKernelStamp := MC.bKeepKernelStamp m;
     MC.bPermitNonKernel := v;
     MC.iFacilIntMsg := MC.iFacilIntMsg m;
     MC.configSetViaV2Method := MC.configSetViaV2Method m |}.

Definition set_console_log_level (m : modConfData_t) (v : Z) : modConfData_t :=
  {| MC.pszPath := MC.pszPath m;
     MC.console_log_level := v;
     MC.bParseKernelStamp := MC.bParseKernelStamp m;
     MC.bKeepKernelStamp := MC.bKeepKernelStamp m;
     MC.bPermitNonKernel := MC.bPermitNonKernel m;
     MC.iFacilIntMsg := MC.iFacilIntMsg m;
     MC.configSetViaV2Method := MC.configSetViaV2Method m |}.

Definition set_iFacilIntMsg (m : modConfData_t) (v : Z) : modConfData_t :=
  {| MC.pszPath := MC.pszPath m;
     MC.console_log_level := MC.console_log_level m;
     MC.bParseKernelStamp := MC.bParseKernelStamp m;
     MC.bKeepKernelStamp := MC.bKeepKernelStamp m;
     MC.bPermitNonKernel := MC.bPermitNonKernel m;
     MC.iFacilIntMsg := v;
     MC.configSetViaV2Method := MC.configSetViaV2Method m |}.

Definition set_configSetViaV2Method (m : modConfData_t) (v : Z) : modConfData_t :=
  {| MC.pszPath := MC.pszPath m;
     MC.console_log_level := MC.console_log_level m;
     MC.bParseKernelStamp := MC.bParseKernelStamp m;
     MC.bKeepKernelStamp := MC.bKeepKernelStamp m;
     MC.bPermitNonKernel := MC.bPermitNonKernel m;
     MC.iFacilIntMsg := MC.iFacilIntMsg m;
     MC.configSetViaV2Method := v |}.

(** The body of the loop of [setModCnf] for the parameter called [name]
    with value [v]. *)
Definition setModCnf_param (m : modConfData_t) (name : string)
    (v : cnfparamvals) : modConfData_t :=
  if negb (bUsed v) then m
  else if String.eqb name "logpath" then set_pszPath m (Some (val_estr v))
  else if String.eqb name "permitnonkernelfacility"
       then set_bPermitNonKernel m (wrap_int (val_n v))
  else if String.eqb name "consoleloglevel"
       then set_console_log_level m (wrap_int (val_n v))
  else if String.eqb name "internalmsgfacility"
       then set_iFacilIntMsg m (wrap_int (val_n v))
  else m.

(** [setModCnf]; [pvals] is what [nvlstGetParams] returned for the block,
    [None] for NULL. *)
Definition setModCnf (pvals : option (list cnfparamvals)) (st : cnfState)
  : rsRetVal * cnfState :=
  match pvals with
  | None => (RS_RET_MISSING_CNFPARAMS, st)
  | Some pvals =>
      let m := fold_left (fun m nv => setModCnf_param m (fst nv) (snd nv))
                         (combine modpdescr pvals) (loadModConf st) in
      (RS_RET_OK,
       {| cs := cs st;
          loadModConf := set_configSetViaV2Method m 1;
          bLegacyCnfModGlobalsPermitted := 0 |})
  end.

(** [endCnfLoad]: the state it leaves; [loadModConf] of it is the
    configuration of the cycle, handed to activation as [runModConf]. *)
Definition endCnfLoad (st : cnfState) : cnfState :=
  if MC.configSetViaV2Method (loadModConf st) =? 0 then
    let c := cs st in
    let empty := match CS.pszPath c with
                 | None => true
                 | Some s => String.eqb s EmptyString
                 end in
    {| loadModConf :=
         {| MC.bPermitNonKernel := CS.bPermitNonKernel c;
            MC.bParseKernelStamp := CS.bParseKernelStamp c;
            MC.bKeepKernelStamp := CS.bKeepKernelStamp c;
            MC.iFacilIntMsg := CS.iFacilIntMsg c;
            MC.console_log_level := CS.console_log_level c;
            MC.pszPath := if empty then None else CS.pszPath c;
            MC.configSetViaV2Method := MC.configSetViaV2Method (loadModConf st) |};
       cs := {| CS.bPermitNonKernel := CS.bPermitNonKernel c;
                CS.bParseKernelStamp := CS.bParseKernelStamp c;
                CS.bKeepKernelStamp := CS.bKeepKernelStamp c;
                CS.iFacilIntMsg := CS.iFacilIntMsg c;
                CS.pszPath := None;
                CS.console_log_level := CS.console_log_level c |};
       bLegacyCnfModGlobalsPermitted := bLegacyCnfModGlobalsPermitted st |}
  else st.

(** The legacy directives [modInit] registers. *)
Inductive legacyDirective : Type :=
| debugprintkernelsymbols
| klogpath (w : string)
| klogsymbollookup
| klogsymbolstwice
| klogusesyscallinterface
| klogpermitnonkernelfacility (b : bool)
| klogconsoleloglevel (n : Z)
| kloginternalmsgfacility (f : Z)
| klogparsekerneltimestamp (b : bool)
| klogkeepkerneltimestamp (b : bool)
| resetconfigvariables.

Definition cs_with (c : configSettings_t)
    (permit parse keep facil : Z) (path : option string) (level : Z)
  : configSettings_t :=
  {| CS.bPermitNonKernel := permit;
     CS.bParseKernelStamp := parse;
     CS.bKeepKernelStamp := keep;
     CS.iFacilIntMsg := facil;
     CS.pszPath := path;
     CS.console_log_level := level |}.

(** The store a registered handler makes into the field of [cs] it was
    registered for. *)
Definition legacy_store (d : legacyDirective) (c : configSettings_t)
  : configSettings_t :=
  let b2z (b : bool) := if b then 1 else 0 in
  match d with
  | klogpath w =>
      cs_with c (CS.bPermitNonKernel c) (CS.bParseKernelStamp c)
        (CS.bKeepKernelStamp c) (CS.iFacilIntMsg c) (Some w)
        (CS.console_log_level c)
  | klogpermitnonkernelfacility b =>
      cs_with c (b2z b) (CS.bParseKernelStamp c)
        (CS.bKeepKernelStamp c) (CS.iFacilIntMsg c) (CS.pszPath c)
        (CS.console_log_level c)
  | klogconsoleloglevel n =>
      cs_with c (CS.bPermitNonKernel c) (CS.bParseKernelStamp c)
        (CS.bKeepKernelStamp c) (CS.iFacilIntMsg c) (CS.pszPath c)
        (wrap_int n)
  | kloginternalmsgfacility f =>
      cs_with c (CS.bPermitNonKernel c) (CS.bParseKernelStamp c)
        (CS.bKeepKernelStamp c) (wrap_int f) (CS.pszPath c)
        (CS.console_log_level c)
  | klogparsekerneltimestamp b =>
      cs_with c (CS.bPermitNonKernel c) (b2z b)
        (CS.bKeepKernelStamp c) (CS.iFacilIntMsg c) (CS.pszPath c)
        (CS.console_log_level c)
  | klogkeepkerneltimestamp b =>
      cs_with c (CS.bPermitNonKernel c) (CS.bParseKernelStamp c)
        (b2z b) (CS.iFacilIntMsg c) (CS.pszPath c)
        (CS.console_log_level c)
  | _ => c
  end.

Definition with_cs (st : cnfState) (c : configSettings_t) : cnfState :=
  {| cs := c;
     loadModConf := loadModConf st;
     bLegacyCnfModGlobalsPermitted := bLegacyCnfModGlobalsPermitted st |}.

(** Modelled from the spec: the processor of legacy directives
    (cfsysline.c) is not among the sources.  By section 6 a directive takes
    one argument, which goes to the variable [modInit] registered it with;
    [resetconfigvariables] runs the module's handler at once; the
    directives registered as gone away are recognized and rejected.  A
    directive registered through [regCfSysLineHdlr2] carries the switch
    [bLegacyCnfModGlobalsPermitted] and is refused while the switch is 0. *)
Definition doDirective `{KlogDriver} (d : legacyDirective) (st : cnfState)
  : rsRetVal * cnfState :=
  match d with
  | debugprintkernelsymbols | klogsymbollookup | klogsymbolstwice
  | klogusesyscallinterface => (RS_RET_ERR 0, st)
  | resetconfigvariables =>
      let '(r, c) := resetConfigVariables (cs st) in (r, with_cs st c)
  | _ =>
      if bLegacyCnfModGlobalsPermitted st =? 0
      then (RS_RET_PARAM_NOT_PERMITTED, st)
      else (RS_RET_OK, with_cs st (legacy_store d (cs st)))
  end.

(** What arrives between [beginCnfLoad] and [endCnfLoad]. *)
Inductive cnfEvent : Type :=
| Directive (d : legacyDirective)
| ModuleParams (pvals : option (list cnfparamvals)).

Definition cnfStep `{KlogDriver} (st : cnfState) (e : cnfEvent) : cnfState :=
  match e with
  | Directive d => snd (doDirective d st)
  | ModuleParams pvals => snd (setModCnf pvals st)
  end.

(** A load cycle: [beginCnfLoad], the events, [endCnfLoad]. *)
Definition loadCycle `{KlogDriver} (c : configSettings_t)
    (evs : list cnfEvent) : cnfState :=
  endCnfLoad (fold_left cnfStep evs (beginCnfLoad c)).

(** [activateCnfPrePrivDrop]: [runModConf = pModConf]. *)
Definition runModConf `{KlogDriver} (c : configSettings_t)
    (evs : list cnfEvent) : modConfData_t :=
  loadModConf (loadCycle c evs).

(** The defaults of a configuration, as [beginCnfLoad] sets them. *)
Definition default_modConf `{KlogDriver} (v2 : Z) : modConfData_t :=
  {| MC.pszPath := None;
     MC.console_log_level := -1;
     MC.bParseKernelStamp := 0;
     MC.bKeepKernelStamp := 0;
     MC.bPermitNonKernel := 0;
     MC.iFacilIntMsg := klogFacilIntMsg;
     MC.configSetViaV2Method := v2 |}.

Definition is_ModuleParams (e : cnfEvent) : bool :=
  match e with ModuleParams _ => true | Directive _ => false end.

(** Whether some block of [evs] that [setModCnf] accepted gave the [i]-th
    parameter of [modpdescr]. *)
Definition supplied (i : nat) (evs : list cnfEvent) : bool :=
  existsb (fun e =>
             match e with
             | ModuleParams (Some pvals) =>
                 match nth_error pvals i with
                 | Some v => bUsed v
                 | None => false
                 end
             | _ => false
             end) evs.

(** Whether some accepted block gave one of the parameters of
    [modpdescr]. *)
Definition v2_param_supplied (evs : list cnfEvent) : bool :=
  supplied 0 evs || supplied 1 evs || supplied 2 evs || supplied 3 evs.

(** [loadModConf->configSetViaV2Method] *)
Definition v2flag (st : cnfState) : Z :=
  MC.configSetViaV2Method (loadModConf st).

(** The fields of the configuration object [m'] that are those of [m]: each
    of the four a parameter can set, if no block of [evs] gave it, and the
    two no parameter sets. *)
Definition fields_kept (evs : list cnfEvent) (m m' : modConfData_t) : Prop :=
  (supplied 0 evs = false -> MC.pszPath m' = MC.pszPath m)
  /\ (supplied 1 evs = false -> MC.bPermitNonKernel m' = MC.bPermitNonKernel m)
  /\ (supplied 2 evs = false -> MC.console_log_level m' = MC.console_log_level m)
  /\ (supplied 3 evs = false -> MC.iFacilIntMsg m' = MC.iFacilIntMsg m)
  /\ MC.bParseKernelStamp m' = MC.bParseKernelStamp m
  /\ MC.bKeepKernelStamp m' = MC.bKeepKernelStamp m.

(** ** Instances to run the definitions on *)

(** A driver whose internal messages go to facility 5 (syslog). *)
#[global] Instance driver_syslog : KlogDriver := {| klogFacilIntMsg := 40 |}.

(** A daemon whose state is its queue with the return codes its next
    submissions will get: a submission that gets [RS_RET_OK] is appended,
    any other is refused with that code. *)
#[global] Instance scripted_daemon : Daemon (list msg_t * list rsRetVal) := {|
  msgConstruct := fun _ W => (RS_RET_OK, W);
  submitMsg := fun m W =>
    match snd W with
    | [] => (RS_RET_OK, (fst W ++ [m], []))
    | r :: rs =>
        if rsRetVal_eqb r RS_RET_OK then (RS_RET_OK, (fst W ++ [m], rs))
        else (r, (fst W, rs))
    end
|}.

Definition cs_default : configSettings_t := initConfigSettings (cs_with
  {| CS.bPermitNonKernel := 0; CS.bParseKernelStamp := 0;
     CS.bKeepKernelStamp := 0; CS.iFacilIntMsg := 0; CS.pszPath := None;
     CS.console_log_level := 0 |} 0 0 0 0 None 0).

Definition cs_permit : configSettings_t :=
  legacy_store (klogpermitnonkernelfacility true) cs_default.

(** A used and an unused entry of [pvals]. *)
Definition used (v : cnfval) : cnfparamvals := {| bUsed := true; val := v |}.
Definition unused : cnfparamvals := {| bUsed := false; val := d_n 0 |}.

(** A parameter block that gives [logpath] only. *)
Definition block_path : cnfEvent :=
  ModuleParams (Some [used (d_estr "/dev/klog"); unused; unused; unused]).

(** Two lines of a driver: one of facility 1 (user), one of the kernel. *)
Definition line_user : kernel_line :=
  {| kl_priority := 14; kl_text := cstr "<13>first"; kl_time := None |}.
Definition line_kern : kernel_line :=
  {| kl_priority := 14; kl_text := cstr "<5>second"; kl_time := None |}.

(** ** Internal messages *)

(** The daemon's [logmsgInternal], with the priority and the text it is
    given; its error code argument [NO_ERRCODE] and its flags 0 are
    constant here and left out. *)
Class InternalLog (World : Type) : Type := {
  logmsgInternal : Z -> list uchar -> World -> rsRetVal * World
}.



(** ** Readings of a load cycle *)

(** A parameter block that [setModCnf] accepts. *)
Definition accepted (e : cnfEvent) : bool :=
  match e with
  | ModuleParams (Some _) => true
  | _ => false
  end.

(** The legacy directives among the events of a cycle. *)
Definition directives_of (evs : list cnfEvent) : list legacyDirective :=
  flat_map (fun e => match e with Directive d => [d] | ModuleParams _ => [] end)
           evs.

(** What a directive that is not refused does to [cs]. *)
Definition legacy_apply `{KlogDriver} (c : configSettings_t)
    (d : legacyDirective) : configSettings_t :=
  match d with
  | resetconfigvariables => snd (resetConfigVariables c)
  | _ => legacy_store d c
  end.

(** The [i]-th entry of [pvals], if it is there and used. *)
Definition param_given (pvals : list cnfparamvals) (i : nat)
  : option cnfparamvals :=
  match nth_error pvals i with
  | Some v => if bUsed v then Some v else None
  | None => None
  end.






(** The record [enqMsg] submits for the text [raw]. *)
Definition kernel_msg (tp : option timeval) (raw : list uchar)
    (pszTag : string) (iFac iSev : Z) : msg_t :=
  {| msgTime := tp;
     msgFlowCtlType := eFLOWCTL_LIGHT_DELAY;
     msgInputName := pInputName;
     pszRawMsg := raw;
     offMSG := 0;
     msgRcvFromIP := pLocalHostIP;
     pszTAG := pszTag;
     iFacility := iFac;
     iSeverity := iSev |}.

(** A daemon's log that keeps the internal messages it is given and
    refuses every one of them. *)
#[global] Instance refusing_log : InternalLog (list (Z * list uchar)) := {|
  logmsgInternal := fun priority msg W => (RS_RET_ERR (-1), W ++ [(priority, msg)])
|}.

(** Where [Syslog] looks for a second PRI: [pMsg + ((pMsg[3] == '<') ? 3 : 4)]. *)
Definition inner_pri_at (buf : buffer) (pMsg : nat) : nat :=
  match deref buf (pMsg + 3) with
  | Some c3 => (pMsg + (if Ascii.eqb c3 "<" then 3 else 4))%nat
  | None => (pMsg + 4)%nat
  end.

(** * Properties *)

(** ** Integers *)

Lemma wrap_int_mod (z : Z) : wrap_int z mod 4294967296 = z mod 4294967296.
Proof.
  unfold wrap_int.
  rewrite Zminus_mod_idemp_l.
  f_equal. lia.
Qed.

Lemma wrap_int_congr (a b : Z) :
  a mod 4294967296 = b mod 4294967296 -> wrap_int a = wrap_int b.
Proof.
  intros E. unfold wrap_int.
  rewrite <- (Zplus_mod_idemp_l a), <- (Zplus_mod_idemp_l b), E.
  reflexivity.
Qed.

Lemma wrap_int_small (z : Z) : INT_MIN <= z <= INT_MAX -> wrap_int z = z.
Proof.
  unfold INT_MIN, INT_MAX, wrap_int. intros R.
  rewrite Z.mod_small; lia.
Qed.

Lemma wrap_int_range (z : Z) : INT_MIN <= wrap_int z <= INT_MAX.
Proof.
  unfold INT_MIN, INT_MAX, wrap_int.
  pose proof (Z.mod_pos_bound (z + 2147483648) 4294967296). lia.
Qed.

Lemma digit_step_wrap (x : Z) (c : uchar) :
  digit_step (wrap_int x) c = wrap_int (x * 10 + digit_value c).
Proof.
  unfold digit_step, int_sub, int_add, int_mul, digit_value.
  change (code "0"%char) with 48.
  apply wrap_int_congr.
  rewrite Zminus_mod, wrap_int_mod, <- Zminus_mod.
  rewrite <- Zminus_mod_idemp_l, <- Zplus_mod_idemp_l, wrap_int_mod.
  rewrite Zplus_mod_idemp_l, Zminus_mod_idemp_l.
  rewrite <- Zminus_mod_idemp_l, <- Zplus_mod_idemp_l.
  rewrite <- Zmult_mod_idemp_l, wrap_int_mod, Zmult_mod_idemp_l.
  rewrite Zplus_mod_idemp_l, Zminus_mod_idemp_l.
  f_equal. lia.
Qed.

Lemma fold_digit_step_wrap (ds : list uchar) (x : Z) :
  fold_left digit_step ds (wrap_int x)
  = wrap_int (fold_left (fun a c => a * 10 + digit_value c) ds x).
Proof.
  revert x. induction ds as [|d ds IH]; intros x; simpl.
  - reflexivity.
  - rewrite digit_step_wrap. apply IH.
Qed.

Lemma isdigit_value (c : uchar) : isdigit c = true -> 0 <= digit_value c <= 9.
Proof.
  unfold isdigit, digit_value. intros D.
  apply andb_true_iff in D. destruct D as [L U].
  apply Z.leb_le in L. apply Z.leb_le in U. lia.
Qed.

Lemma fold_decimal_nonneg (ds : list uchar) (x : Z) :
  0 <= x -> forallb isdigit ds = true ->
  0 <= fold_left (fun a c => a * 10 + digit_value c) ds x.
Proof.
  revert x. induction ds as [|d ds IH]; intros x Hx D; simpl in *.
  - exact Hx.
  - apply andb_true_iff in D. destruct D as [Dd Dds].
    apply IH; [|exact Dds].
    pose proof (isdigit_value d Dd). lia.
Qed.

(** ** Lists of bytes *)

Lemma leading_after_digits (s : list uchar) :
  leading_digits s ++ after_digits s = s.
Proof.
  induction s as [|c s IH]; simpl; [reflexivity|].
  destruct (isdigit c); simpl; [now rewrite IH | reflexivity].
Qed.

Lemma skipn_leading_digits (s : list uchar) :
  skipn (length (leading_digits s)) s = after_digits s.
Proof.
  induction s as [|c s IH]; simpl; [reflexivity|].
  destruct (isdigit c); simpl; [exact IH | reflexivity].
Qed.

Lemma leading_digits_run (ds : list uchar) (c : uchar) (rest : list uchar) :
  forallb isdigit ds = true -> isdigit c = false ->
  leading_digits (ds ++ c :: rest) = ds /\ after_digits (ds ++ c :: rest) = c :: rest.
Proof.
  intros D C. induction ds as [|d ds IH]; simpl in *.
  - now rewrite C.
  - apply andb_true_iff in D. destruct D as [Dd Dds].
    rewrite Dd. destruct (IH Dds) as [E1 E2]. now rewrite E1, E2.
Qed.

Lemma after_digits_terminated (s : list uchar) :
  exists c rest, after_digits (s ++ [NUL]) = c :: rest.
Proof.
  induction s as [|d s IH]; simpl.
  - now exists NUL, [].
  - destruct (isdigit d); [exact IH | now exists d, (s ++ [NUL])].
Qed.

Lemma after_digits_length (s : list uchar) :
  (length (leading_digits s) + length (after_digits s) = length s)%nat.
Proof.
  rewrite <- (leading_after_digits s) at 3. now rewrite length_app.
Qed.

Lemma skipn_terminated (buf : buffer) (p : nat) :
  terminated buf -> (p < length buf)%nat ->
  exists s, skipn p buf = s ++ [NUL].
Proof.
  intros [s ->] L. rewrite length_app in L. simpl in L.
  exists (skipn p s). rewrite skipn_app.
  replace (p - length s)%nat with 0%nat by lia. reflexivity.
Qed.

Lemma skipn_S_tl {A} (p : nat) (l : list A) : skipn (S p) l = tl (skipn p l).
Proof.
  revert l. induction p as [|p IH]; intros [|a l]; simpl; try reflexivity.
  - rewrite <- IH. reflexivity.
Qed.

Lemma deref_skipn (buf : buffer) (p : nat) :
  deref buf p = hd_error (skipn p buf).
Proof. unfold deref. now rewrite hd_error_skipn. Qed.

(** ** The loop of parsePRI *)

Lemma scan_digits_run (s : list uchar) (pSz : nat) (i : Z) :
  scan_digits s pSz i =
  match after_digits s with
  | [] => None
  | _ :: _ => Some ((pSz + length (leading_digits s))%nat,
                    fold_left digit_step (leading_digits s) i)
  end.
Proof.
  revert pSz i. induction s as [|c s IH]; intros pSz i; simpl.
  - reflexivity.
  - destruct (isdigit c) eqn:D.
    + rewrite IH. destruct (after_digits s); [reflexivity|].
      simpl. do 2 f_equal. lia.
    + simpl. do 2 f_equal. lia.
Qed.

(** [parsePRI] on the bytes at the cursor. *)
Lemma parsePRI_at (buf : buffer) (ppSz : nat) (piPri : Z) :
  parsePRI buf ppSz piPri =
  match skipn ppSz buf with
  | [] => None
  | c0 :: t =>
      if negb (Ascii.eqb c0 "<") then Some (RS_RET_INVALID_PRI, ppSz, piPri)
      else if negb (starts_with_digit t)
           then match t with
                | [] => None
                | _ => Some (RS_RET_INVALID_PRI, ppSz, piPri)
                end
      else match after_digits t with
           | [] => None
           | c :: _ =>
               if negb (Ascii.eqb c ">")
               then Some (RS_RET_INVALID_PRI, ppSz, piPri)
               else Some (RS_RET_OK,
                          (ppSz + length (leading_digits t) + 2)%nat,
                          wrap_int (decimal_value (leading_digits t)))
           end
  end.
Proof.
  unfold parsePRI.
  rewrite (deref_skipn buf ppSz).
  destruct (skipn ppSz buf) as [|c0 t] eqn:E; cbn [hd_error]; [reflexivity|].
  destruct (Ascii.eqb c0 "<"); cbn [negb]; [|reflexivity].
  assert (Et : skipn (S ppSz) buf = t) by (rewrite skipn_S_tl, E; reflexivity).
  rewrite deref_skipn. replace (ppSz + 1)%nat with (S ppSz) by lia.
  rewrite Et, scan_digits_run.
  destruct t as [|c1 t']; [reflexivity|].
  cbn [hd_error starts_with_digit].
  destruct (isdigit c1) eqn:D1; cbn [negb]; [|reflexivity].
  destruct (after_digits (c1 :: t')) as [|c r] eqn:A; [reflexivity|].
  rewrite deref_skipn.
  replace (S ppSz + length (leading_digits (c1 :: t')))%nat
    with (length (leading_digits (c1 :: t')) + S ppSz)%nat by lia.
  rewrite <- skipn_skipn, Et, skipn_leading_digits, A.
  cbn [hd_error].
  destruct (Ascii.eqb c ">"); cbn [negb]; [|reflexivity].
  do 3 f_equal.
  - lia.
  - change 0 with (wrap_int 0) at 1.
    apply fold_digit_step_wrap.
Qed.

Lemma parsePRI_terminated (buf : buffer) (ppSz : nat) (piPri : Z) :
  terminated buf -> (ppSz < length buf)%nat ->
  exists r p v,
    parsePRI buf ppSz piPri = Some (r, p, v)
    /\ (p < length buf)%nat
    /\ r = (if pri_format_violation (skipn ppSz buf)
            then RS_RET_INVALID_PRI else RS_RET_OK).
Proof.
  intros T L.
  destruct (skipn_terminated buf ppSz T L) as [s Es].
  rewrite parsePRI_at. unfold pri_format_violation.
  destruct (skipn ppSz buf) as [|c0 t] eqn:E.
  { destruct s; discriminate. }
  cbn [starts_with tl].
  destruct (Ascii.eqb c0 "<") eqn:E0; cbn [negb orb].
  2:{ eauto 6. }
  apply Ascii.eqb_eq in E0. subst c0.
  destruct s as [|c0' s']; [discriminate|].
  injection Es as _ Et. subst t.
  destruct (starts_with_digit (s' ++ [NUL])) eqn:D; cbn [negb orb].
  2:{ destruct s'; simpl; eauto 6. }
  destruct (after_digits_terminated s') as (c & r & A).
  rewrite A. cbn [starts_with].
  destruct (Ascii.eqb c ">") eqn:Ec; cbn [negb].
  2:{ eauto 6. }
  do 3 eexists. split; [reflexivity|]. split; [|reflexivity].
  apply Ascii.eqb_eq in Ec. subst c.
  (* the byte after '>' is inside the buffer: '>' is not the terminator *)
  pose proof (after_digits_length (s' ++ [NUL])) as Len.
  rewrite A in Len.
  destruct r as [|r0 r].
  { exfalso. pose proof (leading_after_digits (s' ++ [NUL])) as J.
    rewrite A in J. apply (f_equal (@rev uchar)) in J.
    rewrite !rev_app_distr in J. simpl in J. discriminate. }
  pose proof (f_equal (@length uchar) E) as LE.
  rewrite length_skipn in LE. simpl in LE, Len. lia.
Qed.

(** C9: when [parsePRI] does not return [RS_RET_OK], the cursor [*ppSz] and
    the output [*piPri] have the values they had before the call. *)
Theorem parsePRI_failure_frame (buf : buffer) (ppSz : nat) (piPri : Z)
    (r : rsRetVal) (ppSz' : nat) (piPri' : Z) :
  parsePRI buf ppSz piPri = Some (r, ppSz', piPri') ->
  r <> RS_RET_OK ->
  ppSz' = ppSz /\ piPri' = piPri.
Proof.
  unfold parsePRI. intros E NE.
  destruct (deref buf ppSz) as [c0|]; [|discriminate].
  destruct (negb (Ascii.eqb c0 "<")).
  { injection E as <- <- <-. now split. }
  destruct (deref buf (ppSz + 1)) as [c1|]; [|discriminate].
  destruct (negb (isdigit c1)).
  { injection E as <- <- <-. now split. }
  destruct (scan_digits (skipn (S ppSz) buf) (S ppSz) 0) as [[pSz i]|];
    [|discriminate].
  destruct (deref buf pSz) as [c|]; [|discriminate].
  destruct (negb (Ascii.eqb c ">")).
  { injection E as <- <- <-. now split. }
  injection E as <- <- <-. now contradiction NE.
Qed.

Lemma parsePRI_failure_frame_witness :
  parsePRI (cstr "<12 no") 0 (-1) = Some (RS_RET_INVALID_PRI, 0%nat, -1)
  /\ (0%nat = 0%nat /\ -1 = -1).
Proof.
  split; [reflexivity|].
  apply (parsePRI_failure_frame (cstr "<12 no") 0 (-1) RS_RET_INVALID_PRI);
    [reflexivity | discriminate].
Defined.

(** C4: on a terminated line [parsePRI] returns, and it returns
    [RS_RET_INVALID_PRI] exactly when the first character at the cursor is
    not '<', or the character after it is not a digit, or the character
    after the run of digits is not '>'; in every other case it returns
    [RS_RET_OK]. *)
Theorem parsePRI_fails_exactly (buf : buffer) (ppSz : nat) (piPri : Z) :
  terminated buf -> (ppSz < length buf)%nat ->
  exists r p v,
    parsePRI buf ppSz piPri = Some (r, p, v)
    /\ (r = RS_RET_INVALID_PRI <-> pri_format_violation (skipn ppSz buf) = true)
    /\ (r = RS_RET_OK <-> pri_format_violation (skipn ppSz buf) = false).
Proof.
  intros T L.
  destruct (parsePRI_terminated buf ppSz piPri T L) as (r & p & v & E & _ & R).
  exists r, p, v. split; [exact E|].
  destruct (pri_format_violation (skipn ppSz buf)); subst r;
    split; split; intros; congruence.
Qed.

Lemma parsePRI_fails_exactly_witness :
  exists r p v,
    parsePRI (cstr "<13>boot ok") 0 (-1) = Some (r, p, v)
    /\ (r = RS_RET_INVALID_PRI
        <-> pri_format_violation (skipn 0 (cstr "<13>boot ok")) = true)
    /\ (r = RS_RET_OK
        <-> pri_format_violation (skipn 0 (cstr "<13>boot ok")) = false).
Proof.
  apply (parsePRI_fails_exactly (cstr "<13>boot ok") 0 (-1)).
  - exists (list_ascii_of_string "<13>boot ok"). reflexivity.
  - simpl. lia.
Defined.

(** C3, as amended: on "<N>rest" with N one or more decimal digits, leading
    zeros and any length allowed, [parsePRI] returns [RS_RET_OK] and leaves
    the cursor at rest; the integer it stores is the decimal value of N
    reduced to an [int], which is the decimal value of N whenever that is
    at most [INT_MAX]. *)
Theorem parsePRI_accepts_digits (pre N rest : list uchar) (piPri : Z) :
  N <> [] -> forallb isdigit N = true ->
  let buf := pre ++ "<"%char :: N ++ ">"%char :: rest in
  exists p i,
    parsePRI buf (length pre) piPri = Some (RS_RET_OK, p, i)
    /\ p = (length pre + length N + 2)%nat
    /\ skipn p buf = rest
    /\ i = wrap_int (decimal_value N)
    /\ (decimal_value N <= INT_MAX -> i = decimal_value N).
Proof.
  intros NE D buf.
  assert (E : skipn (length pre) buf = "<"%char :: N ++ ">"%char :: rest).
  { unfold buf. rewrite skipn_app, Nat.sub_diag, skipn_all. reflexivity. }
  destruct (leading_digits_run N ">"%char rest D eq_refl) as [EL EA].
  exists (length pre + length N + 2)%nat, (wrap_int (decimal_value N)).
  split; [|split; [reflexivity|split; [|split; [reflexivity|]]]].
  - rewrite parsePRI_at, E. cbn [Ascii.eqb negb].
    change (Ascii.eqb "<" "<") with true. cbn [negb].
    destruct N as [|d N']; [contradiction|].
    assert (Dd : isdigit d = true).
    { simpl in D. now apply andb_true_iff in D. }
    change ((d :: N') ++ ">"%char :: rest) with (d :: (N' ++ ">"%char :: rest)) in *.
    cbn [starts_with_digit]. rewrite Dd. cbn [negb].
    rewrite EA, EL. reflexivity.
  - replace (length pre + length N + 2)%nat
      with ((length N + 2) + length pre)%nat by lia.
    rewrite <- skipn_skipn, E.
    replace (length N + 2)%nat with (S (length N + 1)) by lia.
    cbn [skipn].
    replace (length N + 1)%nat with (1 + length N)%nat by lia.
    rewrite <- skipn_skipn.
    rewrite skipn_app, Nat.sub_diag, skipn_all. reflexivity.
  - intros B. apply wrap_int_small.
    pose proof (fold_decimal_nonneg N 0 (Z.le_refl 0) D).
    unfold decimal_value, INT_MIN in *. lia.
Qed.

Lemma parsePRI_accepts_digits_witness :
  exists p i,
    parsePRI (cstr "xxx<013>boot ok") 3 (-1) = Some (RS_RET_OK, p, i)
    /\ p = 8%nat
    /\ skipn p (cstr "xxx<013>boot ok") = cstr "boot ok"
    /\ i = wrap_int 13
    /\ (13 <= INT_MAX -> i = 13).
Proof.
  apply (parsePRI_accepts_digits
           (list_ascii_of_string "xxx") (list_ascii_of_string "013")
           (cstr "boot ok") (-1)).
  - discriminate.
  - reflexivity.
Defined.

(** C3, as stated, fails: the ten digits of 4294967304 are accepted, but the
    integer stored is 8. *)
Lemma parsePRI_long_number_not_its_value :
  forallb isdigit (list_ascii_of_string "4294967304") = true
  /\ decimal_value (list_ascii_of_string "4294967304") = 4294967304
  /\ parsePRI (cstr "<4294967304>rest") 0 (-1) = Some (RS_RET_OK, 12%nat, 8)
  /\ 8 <> decimal_value (list_ascii_of_string "4294967304").
Proof.
  repeat split; try reflexivity. vm_compute. discriminate.
Qed.

(** ** Priorities *)

Lemma LOG_macros_arith (p : Z) :
  0 <= p < 1024 -> LOG_FAC p = p / 8 /\ LOG_PRI p = p mod 8.
Proof.
  intros R. unfold LOG_FAC, LOG_PRI, LOG_FACMASK, LOG_PRIMASK. split.
  - rewrite Z.shiftr_land.
    change (Z.shiftr 1016 3) with (Z.ones 7).
    rewrite Z.land_ones, Z.shiftr_div_pow2 by lia.
    change (2 ^ 3) with 8. change (2 ^ 7) with 128.
    apply Z.mod_small. split.
    + apply Z.div_pos; lia.
    + apply Z.div_lt_upper_bound; lia.
  - change 7 with (Z.ones 3). rewrite Z.land_ones by lia. reflexivity.
Qed.

Lemma secondary_band_not_kernel (p : Z) :
  8 <= p <= 192 -> (LOG_FAC p =? LOG_KERN) = false.
Proof.
  intros R. destruct (LOG_macros_arith p) as [F _]; [lia|].
  rewrite F. unfold LOG_KERN. apply Z.eqb_neq.
  assert (1 <= p / 8) by (apply Z.div_le_lower_bound; lia). lia.
Qed.

(** ** Syslog *)

Lemma until_NUL_terminated (s : list uchar) :
  exists r, until_NUL (s ++ [NUL]) = Some r.
Proof.
  induction s as [|c s [r IH]]; simpl.
  - now exists [].
  - destruct (Ascii.eqb c NUL); [now exists []|].
    rewrite IH. now exists (c :: r).
Qed.

Lemma string_at_terminated (buf : buffer) (p : nat) :
  terminated buf -> (p < length buf)%nat ->
  exists r, string_at buf p = Some r.
Proof.
  intros T L. unfold string_at.
  apply Nat.ltb_lt in L as L'. rewrite L'.
  destruct (skipn_terminated buf p T L) as [s ->].
  apply until_NUL_terminated.
Qed.

Lemma deref_in_bounds (buf : buffer) (p : nat) :
  deref buf p <> None <-> (p < length buf)%nat.
Proof. unfold deref. apply nth_error_Some. Qed.

Lemma deref_last_terminated (buf : buffer) (p : nat) (c : uchar) :
  terminated buf -> deref buf p = Some c -> c <> NUL ->
  (S p < length buf)%nat.
Proof.
  intros [s ->] E NE. unfold deref in E.
  assert (L : (p < length (s ++ [NUL]))%nat)
    by (apply nth_error_Some; congruence).
  rewrite length_app in *. simpl in *.
  destruct (Nat.eq_dec p (length s)) as [->|]; [|lia].
  rewrite nth_error_app2, Nat.sub_diag in E by lia.
  simpl in E. congruence.
Qed.

(** The bytes the double-PRI test reads. *)
Lemma could_be_pri_in_bounds (buf : buffer) (pMsg : nat) :
  could_be_pri buf pMsg <> None <->
  (pMsg + 4 <= length buf)%nat
  /\ (deref buf (pMsg + 3) = Some " "%char -> (pMsg + 5 <= length buf)%nat).
Proof.
  unfold could_be_pri.
  pose proof (deref_in_bounds buf (pMsg + 3)) as B3.
  pose proof (deref_in_bounds buf (pMsg + 4)) as B4.
  destruct (deref buf (pMsg + 3)) as [c3|] eqn:E3.
  - assert (L3 : (pMsg + 3 < length buf)%nat) by (apply B3; discriminate).
    destruct (Ascii.eqb c3 "<") eqn:Lt.
    + apply Ascii.eqb_eq in Lt. subst c3.
      split; [intros _|discriminate]. split; [lia|discriminate].
    + destruct (Ascii.eqb c3 " ") eqn:Sp.
      * apply Ascii.eqb_eq in Sp. subst c3.
        destruct (deref buf (pMsg + 4)) as [c4|] eqn:E4.
        -- split; [intros _|discriminate].
           assert ((pMsg + 4 < length buf)%nat) by (apply B4; discriminate).
           split; lia.
        -- split; [congruence|]. intros [_ L5]. specialize (L5 eq_refl).
           exfalso. apply B4; [lia|reflexivity].
      * apply Ascii.eqb_neq in Sp.
        split; [intros _|discriminate]. split; [lia|congruence].
  - split; [congruence|]. intros [L4 _].
    exfalso. apply B3; [lia|reflexivity].
Qed.

Lemma Syslog_pri_terminated (priority : Z) (buf : buffer) (pMsg : nat) :
  terminated buf -> (pMsg + 4 <= length buf)%nat ->
  exists go p pr pri,
    Syslog_pri priority buf pMsg = Some (go, p, pr, pri)
    /\ (p < length buf)%nat.
Proof.
  intros T L. unfold Syslog_pri, could_be_pri.
  assert (Tail : forall p0 pr0 pri0, (p0 < length buf)%nat ->
    exists go p pr pri,
      (if pri0 =? -1
       then '(localRet, pM, prio) <- parsePRI buf p0 pr0 ;;
            if negb (rsRetVal_eqb localRet RS_RET_INVALID_PRI)
               && negb (rsRetVal_eqb localRet RS_RET_OK)
            then Some (false, pM, prio, pri0)
            else Some (true, pM, prio, pri0)
       else Some (true, p0, pr0, pri0)) = Some (go, p, pr, pri)
      /\ (p < length buf)%nat).
  { intros p0 pr0 pri0 L0. destruct (pri0 =? -1).
    - destruct (parsePRI_terminated buf p0 pr0 T L0) as (r & p & v & E & Lp & _).
      rewrite E.
      destruct (negb (rsRetVal_eqb r RS_RET_INVALID_PRI)
                && negb (rsRetVal_eqb r RS_RET_OK)); eauto 8.
    - eauto 8. }
  destruct (deref buf (pMsg + 3)) as [c3|] eqn:E3.
  2:{ exfalso. apply (deref_in_bounds buf (pMsg + 3)); [lia|exact E3]. }
  assert (Inner : forall pI, (pI < length buf)%nat ->
    exists go p pr pri,
      ('(pM, prio, pri0) <-
         ('(localRet, pMsgTmp, pri1) <- parsePRI buf pI (-1) ;;
          if rsRetVal_eqb localRet RS_RET_OK && (8 <=? pri1) && (pri1 <=? 192)
          then Some (pMsgTmp, pri1, pri1)
          else Some (pMsg, priority, pri1)) ;;
       if pri0 =? -1
       then '(localRet, pM', prio') <- parsePRI buf pM prio ;;
            if negb (rsRetVal_eqb localRet RS_RET_INVALID_PRI)
               && negb (rsRetVal_eqb localRet RS_RET_OK)
            then Some (false, pM', prio', pri0)
            else Some (true, pM', prio', pri0)
       else Some (true, pM, prio, pri0)) = Some (go, p, pr, pri)
      /\ (p < length buf)%nat).
  { intros pI LI.
    destruct (parsePRI_terminated buf pI (-1) T LI) as (r & p & v & E & Lp & _).
    rewrite E.
    destruct (rsRetVal_eqb r RS_RET_OK && (8 <=? v) && (v <=? 192)).
    - apply Tail. exact Lp.
    - apply Tail. lia. }
  destruct (Ascii.eqb c3 "<") eqn:Lt.
  - apply Inner. lia.
  - destruct (Ascii.eqb c3 " ") eqn:Sp.
    + apply Ascii.eqb_eq in Sp. subst c3.
      assert (L4 : (S (pMsg + 3) < length buf)%nat).
      { apply (deref_last_terminated buf (pMsg + 3) " "%char T E3). discriminate. }
      destruct (deref buf (pMsg + 4)) as [c4|] eqn:E4.
      2:{ exfalso. apply (deref_in_bounds buf (pMsg + 4)); [lia|exact E4]. }
      destruct (Ascii.eqb c4 "<").
      * cbn [Ascii.eqb]. change (Ascii.eqb " " "<") with false. cbn iota.
        apply Inner. lia.
      * apply Tail. lia.
    + apply Tail. lia.
Qed.

Lemma Syslog_terminated {World} `{Daemon World} (cs : configSettings_t)
    (priority : Z) (buf : buffer) (pMsg : nat) (tp : option timeval) (W : World) :
  terminated buf -> (pMsg + 4 <= length buf)%nat ->
  Syslog cs priority buf pMsg tp W <> None.
Proof.
  intros T L. unfold Syslog.
  destruct (Syslog_pri_terminated priority buf pMsg T L)
    as (go & p & pr & pri & E & Lp).
  rewrite E.
  destruct (negb go); [discriminate|].
  destruct ((CS.bPermitNonKernel cs =? 0) && negb (LOG_FAC pr =? LOG_KERN));
    [discriminate|].
  unfold enqMsg. destruct (msgConstruct tp W) as [r W1].
  destruct (negb (rsRetVal_eqb r RS_RET_OK)); [discriminate|].
  destruct (string_at_terminated buf p T Lp) as [raw ->]. discriminate.
Qed.

(** What [Syslog] does once the PRI has been settled. *)
Lemma Syslog_after_pri {World} `{Daemon World} (cs : configSettings_t)
    (priority : Z) (buf : buffer) (pMsg : nat) (tp : option timeval) (W : World)
    (p : nat) (pr pri : Z) :
  Syslog_pri priority buf pMsg = Some (true, p, pr, pri) ->
  Syslog cs priority buf pMsg tp W =
  if (CS.bPermitNonKernel cs =? 0) && negb (LOG_FAC pr =? LOG_KERN)
  then Some (RS_RET_OK, W)
  else enqMsg buf p "kernel:" (LOG_FAC pr) (LOG_PRI pr) tp W.
Proof. intros E. unfold Syslog. rewrite E. reflexivity. Qed.

(** The rule of [Syslog] on the facility, read on the legacy settings it
    consults: with [cs.bPermitNonKernel] at 0 a line of a facility other
    than [LOG_KERN] leaves the daemon untouched and [RS_RET_OK] is
    returned. *)
Lemma Syslog_drops_non_kernel {World} `{Daemon World} (cs : configSettings_t)
    (priority : Z) (buf : buffer) (pMsg : nat) (tp : option timeval) (W : World)
    (go : bool) (p : nat) (pr pri : Z) :
  Syslog_pri priority buf pMsg = Some (go, p, pr, pri) ->
  CS.bPermitNonKernel cs = 0 ->
  LOG_FAC pr <> LOG_KERN ->
  Syslog cs priority buf pMsg tp W = Some (RS_RET_OK, W).
Proof.
  intros E P F. unfold Syslog. rewrite E, P.
  destruct go; cbn [negb]; [|reflexivity].
  apply Z.eqb_neq in F. rewrite F. reflexivity.
Qed.

(** In a cycle that [setModCnf] took no part in, the configuration of the
    cycle and the legacy settings agree on the permission. *)
Lemma endCnfLoad_legacy_permit (st : cnfState) :
  MC.configSetViaV2Method (loadModConf st) = 0 ->
  MC.bPermitNonKernel (loadModConf (endCnfLoad st))
  = CS.bPermitNonKernel (cs (endCnfLoad st)).
Proof. intros V. unfold endCnfLoad. rewrite V. reflexivity. Qed.

(** Without a second PRI that parses, the PRI is looked for at the start of
    the line; when there is none there either, the priority supplied and
    the whole line are kept. *)
Lemma Syslog_pri_line_start (priority : Z) (buf : buffer) (pMsg : nat) :
  could_be_pri buf pMsg = Some false ->
  Syslog_pri priority buf pMsg =
  '(r, p, pr) <- parsePRI buf pMsg priority ;; Some (true, p, pr, -1).
Proof.
  intros C. unfold Syslog_pri. rewrite C. cbn [Z.eqb].
  change (-1 =? -1) with true. cbn iota.
  destruct (parsePRI buf pMsg priority) as [[[r p] pr]|] eqn:E; [|reflexivity].
  pose proof (parsePRI_at buf pMsg priority) as A. rewrite E in A.
  assert (R : r = RS_RET_OK \/ r = RS_RET_INVALID_PRI).
  { destruct (skipn pMsg buf) as [|c0 t]; [discriminate|].
    destruct (negb (Ascii.eqb c0 "<")); [injection A as -> _ _; now right|].
    destruct (negb (starts_with_digit t)).
    { destruct t; [discriminate|]. injection A as -> _ _; now right. }
    destruct (after_digits t) as [|c r']; [discriminate|].
    destruct (negb (Ascii.eqb c ">")); injection A as -> _ _; auto. }
  destruct R as [-> | ->]; reflexivity.
Qed.

(** C1: when the byte at offset 3 is '<', or is a space followed by '<' at
    offset 4, and [parsePRI] from there succeeds with a value [MMM] between
    8 and 192, the priority of [Syslog] is [MMM] and its message starts
    right after the inner PRI: unless the facility rule drops the line, the
    record is built from that position with the facility and severity of
    [MMM]. *)
Theorem Syslog_secondary_pri {World} `{Daemon World} (cs : configSettings_t)
    (priority : Z) (buf : buffer) (pMsg : nat) (tp : option timeval) (W : World)
    (pInner pPayload : nat) (MMM : Z) :
  (deref buf (pMsg + 3) = Some "<"%char /\ pInner = (pMsg + 3)%nat)
  \/ (deref buf (pMsg + 3) = Some " "%char
      /\ deref buf (pMsg + 4) = Some "<"%char /\ pInner = (pMsg + 4)%nat) ->
  parsePRI buf pInner (-1) = Some (RS_RET_OK, pPayload, MMM) ->
  8 <= MMM <= 192 ->
  Syslog_pri priority buf pMsg = Some (true, pPayload, MMM, MMM)
  /\ Syslog cs priority buf pMsg tp W =
     (if CS.bPermitNonKernel cs =? 0 then Some (RS_RET_OK, W)
      else enqMsg buf pPayload "kernel:" (LOG_FAC MMM) (LOG_PRI MMM) tp W).
Proof.
  intros Two P R.
  assert (B : (8 <=? MMM) = true /\ (MMM <=? 192) = true /\ (MMM =? -1) = false).
  { repeat split; [apply Z.leb_le | apply Z.leb_le | apply Z.eqb_neq]; lia. }
  destruct B as (B1 & B2 & B3).
  assert (E : Syslog_pri priority buf pMsg = Some (true, pPayload, MMM, MMM)).
  { unfold Syslog_pri, could_be_pri.
    destruct Two as [[E3 ->] | (E3 & E4 & ->)]; rewrite E3.
    - change (Ascii.eqb "<" "<") with true. cbn iota.
      rewrite P. cbn [rsRetVal_eqb]. rewrite B1, B2. cbn [andb].
      cbv iota beta. rewrite B3. reflexivity.
    - change (Ascii.eqb " " "<") with false.
      change (Ascii.eqb " " " ") with true. cbn iota.
      rewrite E4. change (Ascii.eqb "<" "<") with true. cbn iota.
      rewrite P. cbn [rsRetVal_eqb]. rewrite B1, B2. cbn [andb].
      cbv iota beta. rewrite B3. reflexivity. }
  split; [exact E|].
  rewrite (Syslog_after_pri cs priority buf pMsg tp W _ _ _ E).
  rewrite (secondary_band_not_kernel MMM R). cbn [negb].
  rewrite andb_true_r. reflexivity.
Qed.

Lemma Syslog_secondary_pri_witness :
  Syslog_pri 14 (cstr "<6> <13>boot ok") 0 = Some (true, 8%nat, 13, 13)
  /\ Syslog cs_permit 14 (cstr "<6> <13>boot ok") 0 None ([], []) =
     (if CS.bPermitNonKernel cs_permit =? 0 then Some (RS_RET_OK, ([], []))
      else enqMsg (cstr "<6> <13>boot ok") 8 "kernel:" (LOG_FAC 13) (LOG_PRI 13)
                  None ([], [])).
Proof.
  apply (Syslog_secondary_pri cs_permit 14 (cstr "<6> <13>boot ok") 0 None
           ([], []) 4 8 13).
  - right. repeat split.
  - reflexivity.
  - lia.
Defined.

(** C2 at the line "<6><3>foo": the text at offset 3 parses as a PRI of
    value 3, which is outside 8..192; the text at the start of the line
    parses as a PRI of value 6; yet [Syslog] does not parse at the start
    of the line: it keeps the priority 14 it was given and submits the
    whole line. *)
Theorem Syslog_rejected_secondary_skips_line_start :
  let line := cstr "<6><3>foo" in
  parsePRI line 3 (-1) = Some (RS_RET_OK, 6%nat, 3)
  /\ parsePRI line 0 14 = Some (RS_RET_OK, 3%nat, 6)
  /\ Syslog_pri 14 line 0 = Some (true, 0%nat, 14, 3)
  /\ exists m,
       Syslog cs_permit 14 line 0 None ([], []) = Some (RS_RET_OK, ([m], []))
       /\ pszRawMsg m = list_ascii_of_string "<6><3>foo"
       /\ iFacility m = LOG_FAC 14 /\ iSeverity m = LOG_PRI 14.
Proof.
  cbv zeta. repeat split.
  eexists. repeat split.
Qed.

(** C5 on a cycle in which the legacy directive
    [klogpermitnonkernelfacility on] is followed by a parameter block
    without that parameter: the configuration of the cycle does not permit
    other facilities, the legacy settings do, and [Syslog], which reads the
    legacy settings, submits the line "<13>hello" of facility 1. *)
Theorem Syslog_reads_legacy_permission :
  let evs := [Directive (klogpermitnonkernelfacility true);
              ModuleParams (Some [used (d_estr "/dev/klog"); unused; unused; unused])] in
  let st := loadCycle cs_default evs in
  let line := cstr "<13>hello" in
  MC.bPermitNonKernel (runModConf cs_default evs) = 0
  /\ CS.bPermitNonKernel (cs st) = 1
  /\ Syslog_pri 14 line 0 = Some (true, 4%nat, 13, -1)
  /\ LOG_FAC 13 <> LOG_KERN
  /\ exists m,
       Syslog (cs st) 14 line 0 None ([], []) = Some (RS_RET_OK, ([m], []))
       /\ pszRawMsg m = list_ascii_of_string "hello"
       /\ iFacility m = 1 /\ iSeverity m = 5.
Proof.
  cbv zeta. repeat split.
  - discriminate.
  - eexists. repeat split.
Qed.

(** The same reading of the legacy settings, the other way round: a block
    with [permitnonkernelfacility] on permits other facilities in the
    configuration of the cycle, and [Syslog] drops the line all the same. *)
Lemma Syslog_ignores_v2_permission :
  let evs := [ModuleParams (Some [unused; used (d_n 1); unused; unused])] in
  let st := loadCycle cs_default evs in
  MC.bPermitNonKernel (runModConf cs_default evs) = 1
  /\ CS.bPermitNonKernel (cs st) = 0
  /\ Syslog (cs st) 14 (cstr "<13>hello") 0 None ([], [])
     = Some (RS_RET_OK, ([], [])).
Proof. cbv zeta. repeat split. Qed.

(** C10, as amended: the double-PRI test of [Syslog] reads the byte at
    offset 3 and, when that is a space, the byte at offset 4, before
    anything else; these reads are inside the buffer exactly when it has
    at least 4 bytes, and 5 when the byte at offset 3 is a space.  Five
    bytes are always enough, and on a terminated line [Syslog] stays inside
    the buffer exactly when the line has at least 4 bytes, its terminator
    included. *)
Theorem Syslog_inspection_bounds {World} `{Daemon World} (cs : configSettings_t)
    (priority : Z) (buf : buffer) (pMsg : nat) (tp : option timeval) (W : World) :
  (could_be_pri buf pMsg <> None <->
     (pMsg + 4 <= length buf)%nat
     /\ (deref buf (pMsg + 3) = Some " "%char -> (pMsg + 5 <= length buf)%nat))
  /\ ((pMsg + 5 <= length buf)%nat -> could_be_pri buf pMsg <> None)
  /\ (could_be_pri buf pMsg = None -> Syslog cs priority buf pMsg tp W = None)
  /\ (terminated buf ->
      (Syslog cs priority buf pMsg tp W <> None <-> (pMsg + 4 <= length buf)%nat)).
Proof.
  split; [apply could_be_pri_in_bounds|].
  split; [|split].
  - intros L. apply could_be_pri_in_bounds. split; lia.
  - intros C. unfold Syslog, Syslog_pri. rewrite C. reflexivity.
  - intros T. split.
    + intros S.
      destruct (could_be_pri buf pMsg) eqn:C.
      * apply (could_be_pri_in_bounds buf pMsg). congruence.
      * exfalso. apply S. unfold Syslog, Syslog_pri. rewrite C. reflexivity.
    + apply Syslog_terminated. exact T.
Qed.

Lemma Syslog_inspection_bounds_witness :
  (could_be_pri (cstr "<6> <13>boot ok") 0 <> None <->
     (0 + 4 <= length (cstr "<6> <13>boot ok"))%nat
     /\ (deref (cstr "<6> <13>boot ok") (0 + 3) = Some " "%char ->
         (0 + 5 <= length (cstr "<6> <13>boot ok"))%nat))
  /\ ((0 + 5 <= length (cstr "<6> <13>boot ok"))%nat ->
      could_be_pri (cstr "<6> <13>boot ok") 0 <> None)
  /\ (could_be_pri (cstr "<6> <13>boot ok") 0 = None ->
      Syslog cs_permit 14 (cstr "<6> <13>boot ok") 0 None ([], []) = None)
  /\ (terminated (cstr "<6> <13>boot ok") ->
      (Syslog cs_permit 14 (cstr "<6> <13>boot ok") 0 None ([], []) <> None
       <-> (0 + 4 <= length (cstr "<6> <13>boot ok"))%nat)).
Proof.
  exact (Syslog_inspection_bounds cs_permit 14 (cstr "<6> <13>boot ok") 0 None
           ([], [])).
Defined.

(** C10, as stated, fails: the line "abc" has 4 bytes with its terminator,
    and [Syslog] stays inside it. *)
Lemma Syslog_four_byte_line_in_bounds :
  terminated (cstr "abc")
  /\ length (cstr "abc") = 4%nat
  /\ could_be_pri (cstr "abc") 0 = Some false
  /\ Syslog cs_default 14 (cstr "abc") 0 None ([], []) = Some (RS_RET_OK, ([], []))
  /\ ~ (5 <= length (cstr "abc"))%nat.
Proof.
  repeat split.
  - exists (list_ascii_of_string "abc"). reflexivity.
  - simpl. lia.
Qed.

(** ** The input loop *)

(** A refused submission is what [Syslog] returns for the line. *)
Lemma Syslog_submit_refused {World} `{Daemon World} (cs : configSettings_t)
    (priority : Z) (buf : buffer) (pMsg : nat) (tp : option timeval)
    (W W0 W1 : World) (p : nat) (pr pri : Z) (raw : list uchar) (r : rsRetVal) :
  Syslog_pri priority buf pMsg = Some (true, p, pr, pri) ->
  (CS.bPermitNonKernel cs =? 0) && negb (LOG_FAC pr =? LOG_KERN) = false ->
  msgConstruct tp W = (RS_RET_OK, W0) ->
  string_at buf p = Some raw ->
  submitMsg {| msgTime := tp;
               msgFlowCtlType := eFLOWCTL_LIGHT_DELAY;
               msgInputName := pInputName;
               pszRawMsg := raw;
               offMSG := 0;
               msgRcvFromIP := pLocalHostIP;
               pszTAG := "kernel:";
               iFacility := LOG_FAC pr;
               iSeverity := LOG_PRI pr |} W0 = (r, W1) ->
  Syslog cs priority buf pMsg tp W = Some (r, W1).
Proof.
  intros E F C S Sub.
  rewrite (Syslog_after_pri cs priority buf pMsg tp W _ _ _ E), F.
  unfold enqMsg. rewrite C. cbn [rsRetVal_eqb negb]. rewrite S, Sub.
  reflexivity.
Qed.

(** The loop of [runInput] ends with the first code other than
    [RS_RET_OK] that the driver returns. *)
Lemma runInput_stops_on_driver_error {World}
    (drv : kernel_line -> World -> option (rsRetVal * World))
    (t : turn) (rest : list turn) (W W1 : World) (r : rsRetVal) :
  bShallStop t = false ->
  drv (next_kernel_line t) W = Some (r, W1) ->
  r <> RS_RET_OK ->
  runInput drv (t :: rest) W = Some (r, W1).
Proof.
  intros S D NE. cbn [runInput]. rewrite S, D.
  destruct r; try reflexivity. now contradiction NE.
Qed.

(** C8: when [Syslog] fails on a line with the code of a refused
    submission, the loop of [runInput] over the driver goes on: unless the
    stop flag is found raised, the next line of the driver is handed to
    [Syslog], in the state the failed line left, and the loop continues
    from there. *)
Theorem runInput_survives_failed_submission {World} `{Daemon World}
    (cs : configSettings_t) (t1 t2 : turn) (rest : list turn)
    (W W1 : World) (r : rsRetVal) :
  bShallStop t1 = false ->
  Syslog cs (kl_priority (next_kernel_line t1)) (kl_text (next_kernel_line t1))
         0 (kl_time (next_kernel_line t1)) W = Some (r, W1) ->
  r <> RS_RET_OK ->
  runInput (klogLogKMsg cs) (t1 :: t2 :: rest) W =
  if bShallStop t2 then Some (RS_RET_OK, W1)
  else
    '(_, W2) <- Syslog cs (kl_priority (next_kernel_line t2))
                       (kl_text (next_kernel_line t2)) 0
                       (kl_time (next_kernel_line t2)) W1 ;;
    runInput (klogLogKMsg cs) rest W2.
Proof.
  intros S1 E NE. cbn [runInput]. rewrite S1.
  unfold klogLogKMsg at 1. rewrite E. cbn [rsRetVal_eqb negb].
  destruct (bShallStop t2); [reflexivity|].
  unfold klogLogKMsg at 1.
  destruct (Syslog cs _ _ 0 _ W1) as [[r2 W2]|]; reflexivity.
Qed.

Lemma runInput_survives_failed_submission_witness :
  exists m,
    runInput (klogLogKMsg cs_permit)
      [ {| bShallStop := false; next_kernel_line := line_user |};
        {| bShallStop := false; next_kernel_line := line_kern |} ]
      ([], [RS_RET_ERR (-1)])
    = Some (RS_RET_OK, ([m], []))
    /\ pszRawMsg m = list_ascii_of_string "second".
Proof.
  rewrite (runInput_survives_failed_submission cs_permit
             {| bShallStop := false; next_kernel_line := line_user |}
             {| bShallStop := false; next_kernel_line := line_kern |}
             [] ([], [RS_RET_ERR (-1)]) ([], []) (RS_RET_ERR (-1))).
  - eexists. split; reflexivity.
  - reflexivity.
  - reflexivity.
  - discriminate.
Defined.

(** ** Configuration load *)

Section Load.
Context `{KlogDriver}.

Lemma cnfStep_Directive_modConf (d : legacyDirective) (st : cnfState) :
  loadModConf (cnfStep st (Directive d)) = loadModConf st.
Proof.
  destruct d; cbn [cnfStep doDirective]; try reflexivity;
    destruct (bLegacyCnfModGlobalsPermitted st =? 0); reflexivity.
Qed.

Lemma cnfStep_ModuleParams_modConf (pvals : option (list cnfparamvals))
    (st st' : cnfState) :
  loadModConf st = loadModConf st' ->
  loadModConf (cnfStep st (ModuleParams pvals))
  = loadModConf (cnfStep st' (ModuleParams pvals)).
Proof.
  intros E. destruct pvals as [pvals|]; cbn [cnfStep setModCnf snd loadModConf].
  - now rewrite E.
  - exact E.
Qed.

(** The configuration object sees the parameter blocks only. *)
Lemma fold_cnfStep_blocks_only (evs : list cnfEvent) (st st' : cnfState) :
  loadModConf st = loadModConf st' ->
  loadModConf (fold_left cnfStep evs st)
  = loadModConf (fold_left cnfStep (filter is_ModuleParams evs) st').
Proof.
  revert st st'. induction evs as [|e evs IH]; intros st st' E.
  - exact E.
  - destruct e as [d|pvals]; cbn [filter is_ModuleParams fold_left].
    + apply IH. now rewrite cnfStep_Directive_modConf.
    + apply IH. now apply cnfStep_ModuleParams_modConf.
Qed.

Lemma cnfStep_v2flag (e : cnfEvent) (st : cnfState) :
  v2flag (cnfStep st e) = v2flag st \/ v2flag (cnfStep st e) = 1.
Proof.
  unfold v2flag. destruct e as [d|[pvals|]].
  - left. now rewrite cnfStep_Directive_modConf.
  - right. reflexivity.
  - left. reflexivity.
Qed.

Lemma fold_cnfStep_v2flag_stays (evs : list cnfEvent) (st : cnfState) :
  v2flag st = 1 -> v2flag (fold_left cnfStep evs st) = 1.
Proof.
  revert st. induction evs as [|e evs IH]; intros st F; [exact F|].
  cbn [fold_left]. apply IH.
  destruct (cnfStep_v2flag e st) as [E|E]; congruence.
Qed.

Lemma fold_cnfStep_v2flag_set (i : nat) (evs : list cnfEvent) (st : cnfState) :
  supplied i evs = true -> v2flag (fold_left cnfStep evs st) = 1.
Proof.
  revert st. induction evs as [|e evs IH]; intros st S; [discriminate|].
  cbn [fold_left]. unfold supplied in S. cbn [existsb] in S.
  destruct e as [d|[pvals|]]; cbn [orb] in S; try (apply IH; exact S).
  apply fold_cnfStep_v2flag_stays. reflexivity.
Qed.

Lemma setModCnf_fields_kept (pvals : list cnfparamvals) (st : cnfState) :
  fields_kept [ModuleParams (Some pvals)] (loadModConf st)
              (loadModConf (snd (setModCnf (Some pvals) st))).
Proof.
  unfold fields_kept, supplied. cbn [existsb setModCnf snd loadModConf].
  destruct pvals as [|[u0 v0] [|[u1 v1] [|[u2 v2] [|[u3 v3] rest]]]];
    cbn [nth_error bUsed orb];
    try destruct u0; try destruct u1; try destruct u2; try destruct u3;
    repeat split; intros; try discriminate; reflexivity.
Qed.

Lemma cnfStep_fields_kept (e : cnfEvent) (st : cnfState) :
  fields_kept [e] (loadModConf st) (loadModConf (cnfStep st e)).
Proof.
  destruct e as [d|[pvals|]].
  - rewrite cnfStep_Directive_modConf. repeat split.
  - apply setModCnf_fields_kept.
  - repeat split.
Qed.

Lemma supplied_cons (i : nat) (e : cnfEvent) (evs : list cnfEvent) :
  supplied i (e :: evs) = false ->
  supplied i [e] = false /\ supplied i evs = false.
Proof.
  unfold supplied. cbn [existsb]. rewrite orb_false_r.
  intros S. now apply orb_false_iff in S.
Qed.

Lemma fold_cnfStep_fields_kept (evs : list cnfEvent) (st : cnfState) :
  fields_kept evs (loadModConf st) (loadModConf (fold_left cnfStep evs st)).
Proof.
  revert st. induction evs as [|e evs IH]; intros st.
  - repeat split.
  - cbn [fold_left].
    destruct (IH (cnfStep st e)) as (I0 & I1 & I2 & I3 & I4 & I5).
    destruct (cnfStep_fields_kept e st) as (S0 & S1 & S2 & S3 & S4 & S5).
    unfold fields_kept.
    repeat split;
      try (intros S; apply supplied_cons in S; destruct S as [Se Sevs]).
    + now rewrite I0, S0.
    + now rewrite I1, S1.
    + now rewrite I2, S2.
    + now rewrite I3, S3.
    + now rewrite I4, S4.
    + now rewrite I5, S5.
Qed.

Lemma endCnfLoad_v2 (st : cnfState) : v2flag st = 1 -> endCnfLoad st = st.
Proof. unfold v2flag, endCnfLoad. intros ->. reflexivity. Qed.

(** A block that [setModCnf] accepts switches the cycle to the parameter
    blocks even when it gives none of the parameters. *)
Lemma setModCnf_empty_block_sets_v2 (st : cnfState) :
  v2flag (snd (setModCnf (Some [unused; unused; unused; unused]) st)) = 1
  /\ bLegacyCnfModGlobalsPermitted
       (snd (setModCnf (Some [unused; unused; unused; unused]) st)) = 0.
Proof. split; reflexivity. Qed.

(** In a cycle in which a parameter block gave at least one of the
    parameters of the module, the configuration of the cycle is the one the
    parameter blocks alone produce, whatever the legacy directives of the
    cycle and the legacy settings before it; a field no block gave has the
    default of [beginCnfLoad]. *)
Theorem v2_parameters_override_legacy (c c' : configSettings_t)
    (evs : list cnfEvent) :
  v2_param_supplied evs = true ->
  runModConf c evs = runModConf c' (filter is_ModuleParams evs)
  /\ MC.configSetViaV2Method (runModConf c evs) = 1
  /\ (supplied 0 evs = false -> MC.pszPath (runModConf c evs) = None)
  /\ (supplied 1 evs = false -> MC.bPermitNonKernel (runModConf c evs) = 0)
  /\ (supplied 2 evs = false -> MC.console_log_level (runModConf c evs) = -1)
  /\ (supplied 3 evs = false ->
      MC.iFacilIntMsg (runModConf c evs) = klogFacilIntMsg)
  /\ MC.bParseKernelStamp (runModConf c evs) = 0
  /\ MC.bKeepKernelStamp (runModConf c evs) = 0.
Proof.
  intros S.
  assert (F : v2flag (fold_left cnfStep evs (beginCnfLoad c)) = 1).
  { unfold v2_param_supplied in S.
    destruct (supplied 0 evs) eqn:S0; [now apply (fold_cnfStep_v2flag_set 0)|].
    destruct (supplied 1 evs) eqn:S1; [now apply (fold_cnfStep_v2flag_set 1)|].
    destruct (supplied 2 evs) eqn:S2; [now apply (fold_cnfStep_v2flag_set 2)|].
    destruct (supplied 3 evs) eqn:S3; [now apply (fold_cnfStep_v2flag_set 3)|].
    discriminate. }
  assert (E : loadModConf (fold_left cnfStep evs (beginCnfLoad c))
              = loadModConf (fold_left cnfStep (filter is_ModuleParams evs)
                                       (beginCnfLoad c')))
    by (apply fold_cnfStep_blocks_only; reflexivity).
  assert (F' : v2flag (fold_left cnfStep (filter is_ModuleParams evs)
                                 (beginCnfLoad c')) = 1)
    by (unfold v2flag in *; now rewrite <- E).
  unfold runModConf, loadCycle.
  rewrite (endCnfLoad_v2 _ F), (endCnfLoad_v2 _ F').
  split; [exact E|]. split; [exact F|].
  destruct (fold_cnfStep_fields_kept evs (beginCnfLoad c))
    as (K0 & K1 & K2 & K3 & K4 & K5).
  repeat split; intros; auto.
Qed.
End Load.

Lemma v2_parameters_override_legacy_witness :
  let evs := [Directive (klogconsoleloglevel 5);
              Directive (klogpermitnonkernelfacility true); block_path] in
  runModConf cs_permit evs = runModConf cs_default (filter is_ModuleParams evs)
  /\ MC.configSetViaV2Method (runModConf cs_permit evs) = 1
  /\ (supplied 0 evs = false -> MC.pszPath (runModConf cs_permit evs) = None)
  /\ (supplied 1 evs = false -> MC.bPermitNonKernel (runModConf cs_permit evs) = 0)
  /\ (supplied 2 evs = false -> MC.console_log_level (runModConf cs_permit evs) = -1)
  /\ (supplied 3 evs = false ->
      MC.iFacilIntMsg (runModConf cs_permit evs) = klogFacilIntMsg)
  /\ MC.bParseKernelStamp (runModConf cs_permit evs) = 0
  /\ MC.bKeepKernelStamp (runModConf cs_permit evs) = 0.
Proof.
  apply (v2_parameters_override_legacy cs_permit cs_default
           [Directive (klogconsoleloglevel 5);
            Directive (klogpermitnonkernelfacility true); block_path]).
  reflexivity.
Defined.

(** *** The parameter blocks of a cycle *)





Lemma existsb_accepted_filter (evs : list cnfEvent) :
  existsb accepted (filter is_ModuleParams evs) = existsb accepted evs.
Proof.
  induction evs as [|[d|pvals] evs IH]; cbn [filter is_ModuleParams existsb];
    [reflexivity | exact IH | now rewrite IH].
Qed.





(** After [resetconfigvariables] the end of a legacy cycle gives every
    field its default but the console log level, which is the one the
    legacy settings had. *)
Lemma reset_then_endCnfLoad `{KlogDriver} (st : cnfState) :
  MC.configSetViaV2Method (loadModConf st) = 0 ->
  loadModConf (endCnfLoad (cnfStep st (Directive resetconfigvariables)))
  = set_console_log_level (default_modConf 0)
                          (CS.console_log_level (cs st)).
Proof.
  intros V. unfold endCnfLoad.
  cbn [cnfStep doDirective resetConfigVariables snd with_cs loadModConf cs].
  rewrite V. reflexivity.
Qed.

(** C7 at a cycle with [klogconsoleloglevel 5] before
    [resetconfigvariables]: the cycle is a legacy one, and its
    configuration has the console log level 5, while the default, which
    [initConfigSettings] and [beginCnfLoad] set, is -1. *)
Theorem reset_keeps_console_log_level :
  let evs := [Directive (klogconsoleloglevel 5);
              Directive resetconfigvariables] in
  MC.configSetViaV2Method (runModConf cs_default evs) = 0
  /\ MC.console_log_level (runModConf cs_default evs) = 5
  /\ MC.console_log_level (default_modConf 0) = -1
  /\ CS.console_log_level (initConfigSettings (cs (loadCycle cs_default evs))) = -1
  /\ runModConf cs_default evs <> default_modConf 0.
Proof.
  cbv zeta. repeat split. discriminate.
Qed.

(** * Further properties *)

(** ** parsePRI *)

Lemma leading_digits_all (s : list uchar) :
  forallb isdigit (leading_digits s) = true.
Proof.
  induction s as [|c s IH]; simpl; [reflexivity|].
  destruct (isdigit c) eqn:D; simpl; [now rewrite D | reflexivity].
Qed.

Lemma skipn_past_pri (buf : buffer) (p : nat) (ds rest : list uchar) :
  skipn p buf = "<"%char :: ds ++ ">"%char :: rest ->
  skipn (p + length ds + 2) buf = rest.
Proof.
  intros E.
  replace (p + length ds + 2)%nat with (1 + length ds + S p)%nat by lia.
  rewrite <- skipn_skipn, (skipn_S_tl p buf), E. cbn [tl].
  rewrite <- skipn_skipn, skipn_app, Nat.sub_diag, skipn_all. reflexivity.
Qed.

Lemma parsePRI_codes (buf : buffer) (ppSz : nat) (piPri : Z)
    (r : rsRetVal) (p : nat) (v : Z) :
  parsePRI buf ppSz piPri = Some (r, p, v) ->
  r = RS_RET_OK \/ r = RS_RET_INVALID_PRI.
Proof.
  rewrite parsePRI_at. intros A.
  destruct (skipn ppSz buf) as [|c0 t]; [discriminate|].
  destruct (negb (Ascii.eqb c0 "<")); [injection A as <- _ _; now right|].
  destruct (negb (starts_with_digit t)).
  { destruct t; [discriminate|]. injection A as <- _ _; now right. }
  destruct (after_digits t) as [|c r']; [discriminate|].
  destruct (negb (Ascii.eqb c ">")); injection A as <- _ _; auto.
Qed.

(** X1: when [parsePRI] succeeds, the text at the cursor is '<', a run of
    one or more digits, '>'; the new cursor is right after the '>' and the
    integer stored is the value of the digits as an [int]. *)
Theorem parsePRI_success_shape (buf : buffer) (ppSz : nat) (piPri : Z)
    (p : nat) (v : Z) :
  parsePRI buf ppSz piPri = Some (RS_RET_OK, p, v) ->
  exists ds rest,
    ds <> [] /\ forallb isdigit ds = true
    /\ skipn ppSz buf = "<"%char :: ds ++ ">"%char :: rest
    /\ p = (ppSz + length ds + 2)%nat
    /\ skipn p buf = rest
    /\ v = wrap_int (decimal_value ds).
Proof.
  rewrite parsePRI_at. intros A.
  destruct (skipn ppSz buf) as [|c0 t] eqn:E; [discriminate|].
  destruct (Ascii.eqb c0 "<") eqn:E0; cbn [negb] in A; [|discriminate].
  apply Ascii.eqb_eq in E0. subst c0.
  destruct (starts_with_digit t) eqn:D; cbn [negb] in A.
  2:{ destruct t; discriminate. }
  destruct (after_digits t) as [|c r] eqn:Af; [discriminate|].
  destruct (Ascii.eqb c ">") eqn:Ec; cbn [negb] in A; [|discriminate].
  apply Ascii.eqb_eq in Ec. subst c.
  injection A as <- <-.
  assert (Et : t = leading_digits t ++ ">"%char :: r).
  { pose proof (leading_after_digits t) as J. rewrite Af in J.
    symmetry. exact J. }
  exists (leading_digits t), r.
  split; [|split; [apply leading_digits_all|split; [|split; [reflexivity|split]]]].
  - destruct t as [|c1 t']; [discriminate|].
    simpl in D |- *. rewrite D. discriminate.
  - now rewrite <- Et.
  - apply skipn_past_pri. now rewrite <- Et.
  - reflexivity.
Qed.

Lemma parsePRI_success_shape_witness :
  exists ds rest,
    ds <> [] /\ forallb isdigit ds = true
    /\ skipn 3 (cstr "<6><13>boot ok") = "<"%char :: ds ++ ">"%char :: rest
    /\ 7%nat = (3 + length ds + 2)%nat
    /\ skipn 7 (cstr "<6><13>boot ok") = rest
    /\ 13 = wrap_int (decimal_value ds).
Proof.
  apply (parsePRI_success_shape (cstr "<6><13>boot ok") 3 (-1) 7 13).
  reflexivity.
Defined.

(** [parsePRI] on a PRI. *)
Lemma parsePRI_on_pri (buf : buffer) (ppSz : nat) (piPri : Z)
    (N rest : list uchar) :
  N <> [] -> forallb isdigit N = true ->
  skipn ppSz buf = "<"%char :: N ++ ">"%char :: rest ->
  parsePRI buf ppSz piPri
  = Some (RS_RET_OK, (ppSz + length N + 2)%nat, wrap_int (decimal_value N)).
Proof.
  intros NE D E.
  destruct (leading_digits_run N ">"%char rest D eq_refl) as [EL EA].
  rewrite parsePRI_at, E.
  change (Ascii.eqb "<" "<") with true. cbn [negb].
  destruct N as [|d N']; [contradiction|].
  assert (Dd : isdigit d = true).
  { simpl in D. now apply andb_true_iff in D. }
  change ((d :: N') ++ ">"%char :: rest) with (d :: (N' ++ ">"%char :: rest)) in *.
  cbn [starts_with_digit]. rewrite Dd. cbn [negb].
  rewrite EA, EL. reflexivity.
Qed.

Lemma fold_decimal_bound (ds : list uchar) (x : Z) :
  0 <= x -> forallb isdigit ds = true ->
  fold_left (fun a c => a * 10 + digit_value c) ds x
  < (x + 1) * 10 ^ Z.of_nat (length ds).
Proof.
  revert x. induction ds as [|d ds IH]; intros x Hx D.
  - simpl. lia.
  - cbn [fold_left length]. simpl in D.
    apply andb_true_iff in D. destruct D as [Dd Dds].
    pose proof (isdigit_value d Dd) as V.
    rewrite Nat2Z.inj_succ, Z.pow_succ_r by lia.
    assert (P : 0 < 10 ^ Z.of_nat (length ds)) by (apply Z.pow_pos_nonneg; lia).
    specialize (IH (x * 10 + digit_value d) ltac:(lia) Dds).
    nia.
Qed.

(** X2: a PRI of at most nine digits is stored with its exact value, which
    is below 10^9: the cursor moves past it and no reduction to 32 bits
    takes place. *)
Theorem parsePRI_nine_digits_exact (pre N rest : list uchar) (piPri : Z) :
  N <> [] -> forallb isdigit N = true -> (length N <= 9)%nat ->
  parsePRI (pre ++ "<"%char :: N ++ ">"%char :: rest) (length pre) piPri
  = Some (RS_RET_OK, (length pre + length N + 2)%nat, decimal_value N)
  /\ 0 <= decimal_value N < 1000000000.
Proof.
  intros NE D L.
  assert (B : 0 <= decimal_value N < 1000000000).
  { split; [apply fold_decimal_nonneg; [lia|exact D]|].
    pose proof (fold_decimal_bound N 0 (Z.le_refl 0) D) as U.
    unfold decimal_value.
    assert (10 ^ Z.of_nat (length N) <= 10 ^ 9)
      by (apply Z.pow_le_mono_r; lia).
    change (10 ^ 9) with 1000000000 in *. lia. }
  split; [|exact B].
  rewrite (parsePRI_on_pri _ (length pre) piPri N rest NE D).
  - rewrite wrap_int_small; [reflexivity|]. unfold INT_MIN, INT_MAX. lia.
  - rewrite skipn_app, Nat.sub_diag, skipn_all. reflexivity.
Qed.

Lemma parsePRI_nine_digits_exact_witness :
  parsePRI (list_ascii_of_string "<6>" ++ "<"%char ::
              list_ascii_of_string "000000191" ++ ">"%char :: cstr "x")
           (length (list_ascii_of_string "<6>")) (-1)
  = Some (RS_RET_OK,
          (length (list_ascii_of_string "<6>")
           + length (list_ascii_of_string "000000191") + 2)%nat,
          decimal_value (list_ascii_of_string "000000191"))
  /\ 0 <= decimal_value (list_ascii_of_string "000000191") < 1000000000.
Proof.
  apply (parsePRI_nine_digits_exact (list_ascii_of_string "<6>")
           (list_ascii_of_string "000000191") (cstr "x") (-1)).
  - discriminate.
  - reflexivity.
  - simpl. lia.
Defined.

(** ** Syslog *)

Lemma LOG_ranges (p : Z) : 0 <= LOG_FAC p <= 127 /\ 0 <= LOG_PRI p <= 7.
Proof.
  unfold LOG_FAC, LOG_PRI, LOG_FACMASK, LOG_PRIMASK. split.
  - rewrite Z.shiftr_land.
    change (Z.shiftr 1016 3) with (Z.ones 7).
    rewrite Z.land_ones by lia. change (2 ^ 7) with 128.
    pose proof (Z.mod_pos_bound (Z.shiftr p 3) 128 ltac:(lia)). lia.
  - assert (E : Z.land p 7 = p mod 8)
      by (change 7 with (Z.ones 3); rewrite Z.land_ones by lia; reflexivity).
    rewrite E.
    pose proof (Z.mod_pos_bound p 8 ltac:(lia)). lia.
Qed.

Lemma parsePRI_invalid_keeps (buf : buffer) (ppSz : nat) (piPri : Z)
    (p : nat) (v : Z) :
  parsePRI buf ppSz piPri = Some (RS_RET_INVALID_PRI, p, v) ->
  p = ppSz /\ v = piPri.
Proof.
  rewrite parsePRI_at. intros A.
  destruct (skipn ppSz buf) as [|c0 t]; [discriminate|].
  destruct (negb (Ascii.eqb c0 "<")); [injection A as <- <-; now split|].
  destruct (negb (starts_with_digit t)).
  { destruct t; [discriminate|]. injection A as <- <-; now split. }
  destruct (after_digits t) as [|c r']; [discriminate|].
  destruct (negb (Ascii.eqb c ">")); [injection A as <- <-; now split|].
  discriminate.
Qed.

Lemma parsePRI_ok_advances (buf : buffer) (ppSz : nat) (piPri : Z)
    (p : nat) (v : Z) :
  parsePRI buf ppSz piPri = Some (RS_RET_OK, p, v) -> (ppSz < p)%nat.
Proof.
  rewrite parsePRI_at. intros A.
  destruct (skipn ppSz buf) as [|c0 t]; [discriminate|].
  destruct (negb (Ascii.eqb c0 "<")); [discriminate|].
  destruct (negb (starts_with_digit t)).
  { destruct t; discriminate. }
  destruct (after_digits t) as [|c r']; [discriminate|].
  destruct (negb (Ascii.eqb c ">")); [discriminate|].
  injection A as <- _. lia.
Qed.

(** The second half of the first half of [Syslog]: the parse at the start
    of the line. *)
Lemma line_start_parse (priority : Z) (buf : buffer) (pMsg : nat)
    (go : bool) (p : nat) (pr : Z) (pri : Z) :
  ('(localRet, pM, prio) <- parsePRI buf pMsg priority ;;
   if negb (rsRetVal_eqb localRet RS_RET_INVALID_PRI)
      && negb (rsRetVal_eqb localRet RS_RET_OK)
   then Some (false, pM, prio, pri)
   else Some (true, pM, prio, pri)) = Some (go, p, pr, pri) ->
  go = true
  /\ ((p = pMsg /\ pr = priority)
      \/ parsePRI buf pMsg priority = Some (RS_RET_OK, p, pr)).
Proof.
  destruct (parsePRI buf pMsg priority) as [[[r p2] pr2]|] eqn:E;
    [|discriminate].
  destruct (parsePRI_codes _ _ _ _ _ _ E) as [-> | ->];
    cbn [rsRetVal_eqb negb andb]; intros A; injection A as <- <- <-.
  - split; [reflexivity|]. now right.
  - split; [reflexivity|]. left. exact (parsePRI_invalid_keeps _ _ _ _ _ E).
Qed.

Lemma Syslog_pri_second (priority : Z) (buf : buffer) (pMsg : nat)
    (go : bool) (p : nat) (pr pri : Z) :
  could_be_pri buf pMsg = Some true ->
  Syslog_pri priority buf pMsg = Some (go, p, pr, pri) ->
  go = true
  /\ ((p = pMsg /\ pr = priority)
      \/ parsePRI buf pMsg priority = Some (RS_RET_OK, p, pr)
      \/ (parsePRI buf (inner_pri_at buf pMsg) (-1) = Some (RS_RET_OK, p, pr)
          /\ 8 <= pr <= 192)).
Proof.
  intros Two. unfold Syslog_pri, inner_pri_at. rewrite Two.
  destruct (deref buf (pMsg + 3)) as [c3|]; [|discriminate].
  destruct (parsePRI buf _ (-1)) as [[[r pT] v]|] eqn:E; [|discriminate].
  destruct (rsRetVal_eqb r RS_RET_OK && (8 <=? v) && (v <=? 192)) eqn:C.
  - apply andb_true_iff in C. destruct C as [C C3].
    apply andb_true_iff in C. destruct C as [C1 C2].
    apply Z.leb_le in C2. apply Z.leb_le in C3.
    assert (r = RS_RET_OK) by (destruct r; try discriminate; reflexivity).
    subst r.
    assert (N : (v =? -1) = false) by (apply Z.eqb_neq; lia).
    cbv iota beta. rewrite N. intros A. injection A as <- <- <- <-.
    split; [reflexivity|]. right. right. repeat split; lia || assumption.
  - cbv iota beta. destruct (v =? -1) eqn:N.
    + intros A. apply Z.eqb_eq in N. subst v.
      destruct (line_start_parse priority buf pMsg go p pr pri) as [G Hc].
      { destruct (parsePRI buf pMsg priority) as [[[r2 p2] pr2]|];
          [|discriminate].
        destruct (negb (rsRetVal_eqb r2 RS_RET_INVALID_PRI)
                  && negb (rsRetVal_eqb r2 RS_RET_OK));
          injection A as <- <- <- <-; reflexivity. }
      split; [exact G|]. destruct Hc as [Hc|Hc]; auto.
    + intros A. injection A as <- <- <- <-.
      split; [reflexivity|]. now left.
Qed.

Lemma Syslog_pri_first (priority : Z) (buf : buffer) (pMsg : nat)
    (go : bool) (p : nat) (pr pri : Z) :
  could_be_pri buf pMsg = Some false ->
  Syslog_pri priority buf pMsg = Some (go, p, pr, pri) ->
  go = true
  /\ ((p = pMsg /\ pr = priority)
      \/ parsePRI buf pMsg priority = Some (RS_RET_OK, p, pr)).
Proof.
  intros One. unfold Syslog_pri. rewrite One.
  change (-1 =? -1) with true. cbv iota beta. intros A.
  assert (pri = -1).
  { destruct (parsePRI buf pMsg priority) as [[[r2 p2] pr2]|];
      [|discriminate].
    destruct (negb (rsRetVal_eqb r2 RS_RET_INVALID_PRI)
              && negb (rsRetVal_eqb r2 RS_RET_OK));
      injection A as _ _ _ <-; reflexivity. }
  subst pri.
  exact (line_start_parse priority buf pMsg go p pr (-1) A).
Qed.

(** X3: the first half of [Syslog] always goes on to the facility rule (its
    early exit on an unexpected code of [parsePRI] is never taken), and it
    settles on one of three things: the priority supplied with nothing
    consumed, the PRI at the start of the line, or a PRI between 8 and 192
    at the second location. *)
Theorem Syslog_pri_outcomes (priority : Z) (buf : buffer) (pMsg : nat)
    (go : bool) (p : nat) (pr pri : Z) :
  Syslog_pri priority buf pMsg = Some (go, p, pr, pri) ->
  go = true
  /\ ((p = pMsg /\ pr = priority)
      \/ parsePRI buf pMsg priority = Some (RS_RET_OK, p, pr)
      \/ (could_be_pri buf pMsg = Some true
          /\ parsePRI buf (inner_pri_at buf pMsg) (-1) = Some (RS_RET_OK, p, pr)
          /\ 8 <= pr <= 192)).
Proof.
  intros E.
  destruct (could_be_pri buf pMsg) as [[|]|] eqn:C.
  - destruct (Syslog_pri_second _ _ _ _ _ _ _ C E) as [G [K | [K | K]]];
      split; auto.
  - destruct (Syslog_pri_first _ _ _ _ _ _ _ C E) as [G [K | K]];
      split; auto.
  - unfold Syslog_pri in E. rewrite C in E. discriminate.
Qed.

Lemma Syslog_pri_outcomes_witness :
  true = true
  /\ ((7%nat = 0%nat /\ 13 = 14)
      \/ parsePRI (cstr "<6><13>boot ok") 0 14 = Some (RS_RET_OK, 7%nat, 13)
      \/ (could_be_pri (cstr "<6><13>boot ok") 0 = Some true
          /\ parsePRI (cstr "<6><13>boot ok")
                      (inner_pri_at (cstr "<6><13>boot ok") 0) (-1)
             = Some (RS_RET_OK, 7%nat, 13)
          /\ 8 <= 13 <= 192)).
Proof.
  apply (Syslog_pri_outcomes 14 (cstr "<6><13>boot ok") 0 true 7 13 13).
  reflexivity.
Defined.

(** Without a PRI that parses at the second location, the first half of
    [Syslog] is the parse at the start of the line. *)
Lemma Syslog_pri_fallback (priority : Z) (buf : buffer) (pMsg : nat) :
  could_be_pri buf pMsg = Some false
  \/ (could_be_pri buf pMsg = Some true
      /\ exists p0 v0, parsePRI buf (inner_pri_at buf pMsg) (-1)
                       = Some (RS_RET_INVALID_PRI, p0, v0)) ->
  Syslog_pri priority buf pMsg =
  '(r, p, pr) <- parsePRI buf pMsg priority ;; Some (true, p, pr, -1).
Proof.
  intros [C | (C & p0 & v0 & E)].
  - apply Syslog_pri_line_start. exact C.
  - unfold Syslog_pri. rewrite C.
    assert (D : deref buf (pMsg + 3) <> None).
    { unfold could_be_pri in C.
      destruct (deref buf (pMsg + 3)); [discriminate|discriminate C]. }
    unfold inner_pri_at in E.
    destruct (deref buf (pMsg + 3)) as [c3|]; [|contradiction].
    rewrite E.
    destruct (parsePRI_invalid_keeps _ _ _ _ _ E) as [_ ->].
    cbn [rsRetVal_eqb andb]. cbv iota beta.
    change (-1 =? -1) with true. cbv iota.
    destruct (parsePRI buf pMsg priority) as [[[r p] pr]|] eqn:E2;
      [|reflexivity].
    destruct (parsePRI_codes _ _ _ _ _ _ E2) as [-> | ->]; reflexivity.
Qed.

(** X4: a line on which no PRI parses, neither at the second location nor
    at its start, is handled whole and with the priority supplied: unless
    the facility rule drops it, the record is built from the start of the
    line with the facility and severity of the priority supplied. *)
Theorem Syslog_line_without_pri {World} `{Daemon World} (cs : configSettings_t)
    (priority : Z) (buf : buffer) (pMsg : nat) (tp : option timeval) (W : World)
    (p1 : nat) (v1 : Z) :
  could_be_pri buf pMsg = Some false
  \/ (could_be_pri buf pMsg = Some true
      /\ exists p0 v0, parsePRI buf (inner_pri_at buf pMsg) (-1)
                       = Some (RS_RET_INVALID_PRI, p0, v0)) ->
  parsePRI buf pMsg priority = Some (RS_RET_INVALID_PRI, p1, v1) ->
  Syslog cs priority buf pMsg tp W =
  if (CS.bPermitNonKernel cs =? 0) && negb (LOG_FAC priority =? LOG_KERN)
  then Some (RS_RET_OK, W)
  else enqMsg buf pMsg "kernel:" (LOG_FAC priority) (LOG_PRI priority) tp W.
Proof.
  intros In St.
  destruct (parsePRI_invalid_keeps _ _ _ _ _ St) as [-> ->].
  apply (Syslog_after_pri cs priority buf pMsg tp W pMsg priority (-1)).
  rewrite (Syslog_pri_fallback priority buf pMsg In), St. reflexivity.
Qed.

Lemma Syslog_line_without_pri_witness :
  Syslog cs_default 6 (cstr "xx <1x> no pri") 0 None ([], []) =
  if (CS.bPermitNonKernel cs_default =? 0) && negb (LOG_FAC 6 =? LOG_KERN)
  then Some (RS_RET_OK, ([], []))
  else enqMsg (cstr "xx <1x> no pri") 0 "kernel:" (LOG_FAC 6) (LOG_PRI 6)
              None ([], []).
Proof.
  apply (Syslog_line_without_pri cs_default 6 (cstr "xx <1x> no pri") 0 None
           ([], []) 0 6).
  - right. split; [reflexivity|]. exists 3%nat, (-1). reflexivity.
  - reflexivity.
Defined.

(** X5: a PRI at the start of the line is taken with whatever value it
    has, no band being applied to it: without a PRI that parses at the
    second location, the facility rule and the record use the value
    parsed at the start and the message starts after that PRI. *)
Theorem Syslog_line_start_pri {World} `{Daemon World} (cs : configSettings_t)
    (priority : Z) (buf : buffer) (pMsg : nat) (tp : option timeval) (W : World)
    (p : nat) (v : Z) :
  could_be_pri buf pMsg = Some false
  \/ (could_be_pri buf pMsg = Some true
      /\ exists p0 v0, parsePRI buf (inner_pri_at buf pMsg) (-1)
                       = Some (RS_RET_INVALID_PRI, p0, v0)) ->
  parsePRI buf pMsg priority = Some (RS_RET_OK, p, v) ->
  Syslog cs priority buf pMsg tp W =
  if (CS.bPermitNonKernel cs =? 0) && negb (LOG_FAC v =? LOG_KERN)
  then Some (RS_RET_OK, W)
  else enqMsg buf p "kernel:" (LOG_FAC v) (LOG_PRI v) tp W.
Proof.
  intros In St.
  apply (Syslog_after_pri cs priority buf pMsg tp W p v (-1)).
  rewrite (Syslog_pri_fallback priority buf pMsg In), St. reflexivity.
Qed.

Lemma Syslog_line_start_pri_witness :
  Syslog cs_permit 14 (cstr "<999>odd") 0 None ([], []) =
  if (CS.bPermitNonKernel cs_permit =? 0) && negb (LOG_FAC 999 =? LOG_KERN)
  then Some (RS_RET_OK, ([], []))
  else enqMsg (cstr "<999>odd") 5 "kernel:" (LOG_FAC 999) (LOG_PRI 999)
              None ([], []).
Proof.
  apply (Syslog_line_start_pri cs_permit 14 (cstr "<999>odd") 0 None
           ([], []) 5 999).
  - left. reflexivity.
  - reflexivity.
Defined.

(** X6: what one call of [Syslog] does to the daemon.  Either nothing (the
    line is dropped, [RS_RET_OK]); or the construction of the message
    fails and its code is returned, nothing being submitted; or one record
    is submitted and the code of the submission is returned.  That record
    has the tag "kernel:", light-delay flow control, a text that starts
    at or after the start of the line, a facility in 0..127 and a severity
    in 0..7, whatever priority was supplied or parsed. *)
Theorem Syslog_effects {World} `{Daemon World} (cs : configSettings_t)
    (priority : Z) (buf : buffer) (pMsg : nat) (tp : option timeval)
    (W W' : World) (r : rsRetVal) :
  Syslog cs priority buf pMsg tp W = Some (r, W') ->
  (r = RS_RET_OK /\ W' = W)
  \/ (r <> RS_RET_OK /\ msgConstruct tp W = (r, W'))
  \/ exists W0 p pr raw,
       msgConstruct tp W = (RS_RET_OK, W0)
       /\ (pMsg <= p)%nat /\ string_at buf p = Some raw
       /\ 0 <= LOG_FAC pr <= 127 /\ 0 <= LOG_PRI pr <= 7
       /\ submitMsg (kernel_msg tp raw "kernel:" (LOG_FAC pr) (LOG_PRI pr)) W0
          = (r, W').
Proof.
  unfold Syslog.
  destruct (Syslog_pri priority buf pMsg) as [[[[go p] pr] pri]|] eqn:E;
    [|discriminate].
  assert (GC : go = true
               /\ ((p = pMsg /\ pr = priority)
                   \/ parsePRI buf pMsg priority = Some (RS_RET_OK, p, pr)
                   \/ parsePRI buf (inner_pri_at buf pMsg) (-1)
                      = Some (RS_RET_OK, p, pr))).
  { destruct (could_be_pri buf pMsg) as [[|]|] eqn:C.
    - destruct (Syslog_pri_second _ _ _ _ _ _ _ C E) as [G [K | [K | [K _]]]];
        split; auto.
    - destruct (Syslog_pri_first _ _ _ _ _ _ _ C E) as [G [K | K]];
        split; auto.
    - unfold Syslog_pri in E. rewrite C in E. discriminate. }
  destruct GC as [-> Cases].
  cbn [negb].
  destruct ((CS.bPermitNonKernel cs =? 0) && negb (LOG_FAC pr =? LOG_KERN)).
  { intros A. injection A as <- <-. now left. }
  unfold enqMsg.
  destruct (msgConstruct tp W) as [r0 W0] eqn:C.
  destruct (rsRetVal_eqb r0 RS_RET_OK) eqn:R0; cbn [negb].
  2:{ intros A. injection A as <- <-. right. left. split; [|reflexivity].
      intros ->. discriminate. }
  assert (r0 = RS_RET_OK) by (destruct r0; try discriminate; reflexivity).
  subst r0.
  destruct (string_at buf p) as [raw|] eqn:S; [|discriminate].
  intros A. injection A as A.
  right. right. exists W0, p, pr, raw.
  destruct (LOG_ranges pr) as [RF RP].
  repeat split; try lia; try assumption.
  destruct Cases as [[-> _] | [P | P]]; [lia| |];
    apply parsePRI_ok_advances in P; unfold inner_pri_at in P.
  - lia.
  - destruct (deref buf (pMsg + 3)) as [c3|]; [destruct (Ascii.eqb c3 "<")|]; lia.
Qed.

Lemma Syslog_effects_witness :
  (RS_RET_ERR (-1) = RS_RET_OK
   /\ ([], []) = (@nil msg_t, [RS_RET_ERR (-1)]))
  \/ (RS_RET_ERR (-1) <> RS_RET_OK
      /\ msgConstruct None (@nil msg_t, [RS_RET_ERR (-1)])
         = (RS_RET_ERR (-1), ([], [])))
  \/ exists W0 p pr raw,
       msgConstruct None (@nil msg_t, [RS_RET_ERR (-1)]) = (RS_RET_OK, W0)
       /\ (0 <= p)%nat /\ string_at (cstr "<99999>big") p = Some raw
       /\ 0 <= LOG_FAC pr <= 127 /\ 0 <= LOG_PRI pr <= 7
       /\ submitMsg (kernel_msg None raw "kernel:" (LOG_FAC pr) (LOG_PRI pr)) W0
          = (RS_RET_ERR (-1), ([], [])).
Proof.
  apply (Syslog_effects cs_permit 14 (cstr "<99999>big") 0 None
           ([], [RS_RET_ERR (-1)]) ([], []) (RS_RET_ERR (-1))).
  reflexivity.
Defined.

(** ** The input loop *)

(** X7: [runInput] reads no line once it has found the stop flag raised:
    the turns from the first raised flag on do not matter, whatever the
    driver is. *)
Theorem runInput_stops_at_flag {World}
    (drv : kernel_line -> World -> option (rsRetVal * World))
    (pre : list turn) (t : turn) (post : list turn) (W : World) :
  bShallStop t = true ->
  runInput drv (pre ++ t :: post) W = runInput drv pre W.
Proof.
  intros S. revert W. induction pre as [|a pre IH]; intros W.
  - cbn [app runInput]. rewrite S. reflexivity.
  - cbn [app runInput]. destruct (bShallStop a); [reflexivity|].
    destruct (drv (next_kernel_line a) W) as [[r W1]|]; [|reflexivity].
    destruct (negb (rsRetVal_eqb r RS_RET_OK)); [reflexivity|].
    apply IH.
Qed.

Lemma runInput_stops_at_flag_witness :
  runInput (klogLogKMsg cs_permit)
    ([ {| bShallStop := false; next_kernel_line := line_kern |} ]
     ++ {| bShallStop := true; next_kernel_line := line_user |}
     :: [ {| bShallStop := false; next_kernel_line := line_user |} ])
    ([], [])
  = runInput (klogLogKMsg cs_permit)
      [ {| bShallStop := false; next_kernel_line := line_kern |} ] ([], []).
Proof.
  apply (runInput_stops_at_flag (klogLogKMsg cs_permit)
           [ {| bShallStop := false; next_kernel_line := line_kern |} ]
           {| bShallStop := true; next_kernel_line := line_user |}
           [ {| bShallStop := false; next_kernel_line := line_user |} ]
           ([], [])).
  reflexivity.
Defined.

(** X8: [runInput] returns a code other than [RS_RET_OK] only as the code
    the driver returned for a line: that line was read with the stop flag
    down, as were all lines before it, and the state returned is the one
    the driver left there; no later line is read. *)
Theorem runInput_error_is_drivers {World}
    (drv : kernel_line -> World -> option (rsRetVal * World))
    (turns : list turn) (W W' : World) (r : rsRetVal) :
  runInput drv turns W = Some (r, W') ->
  r <> RS_RET_OK ->
  exists pre t post W0,
    turns = pre ++ t :: post
    /\ Forall (fun a => bShallStop a = false) (pre ++ [t])
    /\ drv (next_kernel_line t) W0 = Some (r, W')
    /\ runInput drv (pre ++ [t]) W = Some (r, W').
Proof.
  intros E NE. revert W E. induction turns as [|a turns IH]; intros W E.
  - cbn [runInput] in E. injection E as <- _. now contradiction NE.
  - cbn [runInput] in E. destruct (bShallStop a) eqn:S.
    { injection E as <- _. now contradiction NE. }
    destruct (drv (next_kernel_line a) W) as [[r1 W1]|] eqn:D; [|discriminate].
    destruct (rsRetVal_eqb r1 RS_RET_OK) eqn:R1; cbn [negb] in E.
    + destruct (IH W1 E) as (pre & t & post & W0 & -> & F & Dt & Rn).
      exists (a :: pre), t, post, W0. repeat split.
      * cbn [app]. constructor; assumption.
      * exact Dt.
      * cbn [app runInput]. rewrite S, D, R1. exact Rn.
    + injection E as <- <-.
      exists [], a, turns, W. repeat split.
      * cbn [app]. constructor; [exact S|constructor].
      * exact D.
      * cbn [app runInput]. rewrite S, D, R1. reflexivity.
Qed.

Lemma runInput_error_is_drivers_witness :
  exists pre t post W0,
    [ {| bShallStop := false; next_kernel_line := line_kern |};
      {| bShallStop := false; next_kernel_line := line_user |};
      {| bShallStop := false; next_kernel_line := line_kern |} ]
    = pre ++ t :: post
    /\ Forall (fun a => bShallStop a = false) (pre ++ [t])
    /\ klogLogKMsg_passing cs_permit (next_kernel_line t) W0
       = Some (RS_RET_ERR (-1), ([kernel_msg None (list_ascii_of_string "second")
                                   "kernel:" 0 5], []))
    /\ runInput (klogLogKMsg_passing cs_permit) (pre ++ [t])
         ([], [RS_RET_OK; RS_RET_ERR (-1)])
       = Some (RS_RET_ERR (-1), ([kernel_msg None (list_ascii_of_string "second")
                                    "kernel:" 0 5], [])).
Proof.
  apply (runInput_error_is_drivers (klogLogKMsg_passing cs_permit)
           [ {| bShallStop := false; next_kernel_line := line_kern |};
             {| bShallStop := false; next_kernel_line := line_user |};
             {| bShallStop := false; next_kernel_line := line_kern |} ]
           ([], [RS_RET_OK; RS_RET_ERR (-1)])).
  - reflexivity.
  - discriminate.
Defined.

(** ** Internal messages *)



(** ** Configuration load *)

(** X10: an accepted parameter block sets, for each of the four parameters
    it gives, the field of that name and no other: [logpath] the path,
    [permitnonkernelfacility], [consoleloglevel] and [internalmsgfacility]
    their integers; a field whose parameter is not given keeps its value,
    the two timestamp fields and the legacy settings are never touched,
    and the cycle is marked as configured by parameters with the legacy
    directives switched off. *)
Theorem setModCnf_sets_named_fields (pvals : list cnfparamvals) (st : cnfState) :
  let m := loadModConf st in
  let st' := snd (setModCnf (Some pvals) st) in
  let m' := loadModConf st' in
  fst (setModCnf (Some pvals) st) = RS_RET_OK
  /\ MC.pszPath m' = match param_given pvals 0 with
                     | Some v => Some (val_estr v)
                     | None => MC.pszPath m
                     end
  /\ MC.bPermitNonKernel m' = match param_given pvals 1 with
                              | Some v => wrap_int (val_n v)
                              | None => MC.bPermitNonKernel m
                              end
  /\ MC.console_log_level m' = match param_given pvals 2 with
                               | Some v => wrap_int (val_n v)
                               | None => MC.console_log_level m
                               end
  /\ MC.iFacilIntMsg m' = match param_given pvals 3 with
                          | Some v => wrap_int (val_n v)
                          | None => MC.iFacilIntMsg m
                          end
  /\ MC.bParseKernelStamp m' = MC.bParseKernelStamp m
  /\ MC.bKeepKernelStamp m' = MC.bKeepKernelStamp m
  /\ MC.configSetViaV2Method m' = 1
  /\ bLegacyCnfModGlobalsPermitted st' = 0
  /\ cs st' = cs st.
Proof.
  cbv zeta. unfold param_given.
  cbn [setModCnf fst snd loadModConf bLegacyCnfModGlobalsPermitted cs].
  destruct pvals as [|[u0 v0] [|[u1 v1] [|[u2 v2] [|[u3 v3] rest]]]];
    cbn [nth_error bUsed];
    try destruct u0; try destruct u1; try destruct u2; try destruct u3;
    repeat split.
Qed.

Lemma fold_cnfStep_legacy `{KlogDriver} (evs : list cnfEvent) (st : cnfState) :
  bLegacyCnfModGlobalsPermitted st = 1 ->
  existsb accepted evs = false ->
  loadModConf (fold_left cnfStep evs st) = loadModConf st
  /\ cs (fold_left cnfStep evs st)
     = fold_left legacy_apply (directives_of evs) (cs st).
Proof.
  revert st. induction evs as [|e evs IH]; intros st P A.
  - split; reflexivity.
  - cbn [existsb] in A. apply orb_false_iff in A. destruct A as [Ae A].
    cbn [fold_left].
    destruct e as [d|[pvals|]]; [| discriminate Ae |].
    + assert (S : loadModConf (cnfStep st (Directive d)) = loadModConf st
                  /\ bLegacyCnfModGlobalsPermitted (cnfStep st (Directive d)) = 1
                  /\ cs (cnfStep st (Directive d)) = legacy_apply (cs st) d).
      { destruct d; cbn [cnfStep doDirective]; rewrite ?P;
          repeat split; try reflexivity; exact P. }
      destruct S as (S1 & S2 & S3).
      destruct (IH (cnfStep st (Directive d)) S2 A) as [I1 I2].
      split; [now rewrite I1|].
      rewrite I2, S3. reflexivity.
    + exact (IH st P A).
Qed.

(** X11: in a cycle without an accepted parameter block no legacy directive
    is refused, and the configuration of the cycle has the legacy settings
    the directives leave, field by field, an empty path counting as no
    path; the path is then no longer held by the legacy settings. *)
Theorem legacy_cycle_copies_settings `{KlogDriver} (c0 : configSettings_t)
    (evs : list cnfEvent) :
  existsb accepted evs = false ->
  let c := fold_left legacy_apply (directives_of evs) (initConfigSettings c0) in
  runModConf c0 evs =
  {| MC.pszPath := match CS.pszPath c with
                   | Some s => if String.eqb s EmptyString then None else Some s
                   | None => None
                   end;
     MC.console_log_level := CS.console_log_level c;
     MC.bParseKernelStamp := CS.bParseKernelStamp c;
     MC.bKeepKernelStamp := CS.bKeepKernelStamp c;
     MC.bPermitNonKernel := CS.bPermitNonKernel c;
     MC.iFacilIntMsg := CS.iFacilIntMsg c;
     MC.configSetViaV2Method := 0 |}
  /\ CS.pszPath (cs (loadCycle c0 evs)) = None.
Proof.
  intros A c.
  destruct (fold_cnfStep_legacy evs (beginCnfLoad c0) eq_refl A) as [M C].
  unfold runModConf, loadCycle, endCnfLoad.
  rewrite M. cbn [beginCnfLoad loadModConf MC.configSetViaV2Method].
  change (0 =? 0) with true. cbv iota.
  cbn [loadModConf cs CS.pszPath].
  rewrite C. cbn [beginCnfLoad cs]. fold c.
  split; [|reflexivity].
  destruct (CS.pszPath c) as [s|]; [|reflexivity].
  destruct (String.eqb s EmptyString); reflexivity.
Qed.

Lemma legacy_cycle_copies_settings_witness :
  let evs := [Directive (klogpath ""); ModuleParams None;
              Directive (klogpermitnonkernelfacility true);
              Directive klogsymbollookup] in
  let c := fold_left legacy_apply (directives_of evs)
                     (initConfigSettings cs_permit) in
  runModConf cs_permit evs =
  {| MC.pszPath := match CS.pszPath c with
                   | Some s => if String.eqb s EmptyString then None else Some s
                   | None => None
                   end;
     MC.console_log_level := CS.console_log_level c;
     MC.bParseKernelStamp := CS.bParseKernelStamp c;
     MC.bKeepKernelStamp := CS.bKeepKernelStamp c;
     MC.bPermitNonKernel := CS.bPermitNonKernel c;
     MC.iFacilIntMsg := CS.iFacilIntMsg c;
     MC.configSetViaV2Method := 0 |}
  /\ CS.pszPath (cs (loadCycle cs_permit evs)) = None.
Proof.
  apply (legacy_cycle_copies_settings cs_permit
           [Directive (klogpath ""); ModuleParams None;
            Directive (klogpermitnonkernelfacility true);
            Directive klogsymbollookup]).
  reflexivity.
Defined.

(** ** parsePRI and the buffer *)

(** X12: on a terminated buffer the cursor [parsePRI] leaves is inside the
    buffer: on success it points at most at the terminator, never past
    it. *)
Theorem parsePRI_cursor_in_buffer (buf : buffer) (ppSz : nat) (piPri : Z) :
  terminated buf -> (ppSz < length buf)%nat ->
  exists r p v c,
    parsePRI buf ppSz piPri = Some (r, p, v)
    /\ (ppSz <= p < length buf)%nat
    /\ deref buf p = Some c.
Proof.
  intros T L.
  destruct (parsePRI_terminated buf ppSz piPri T L) as (r & p & v & E & Lp & _).
  destruct (deref buf p) as [c|] eqn:D.
  2:{ exfalso. apply (deref_in_bounds buf p); assumption. }
  exists r, p, v, c. repeat split; try assumption.
  destruct (parsePRI_codes _ _ _ _ _ _ E) as [-> | ->].
  - apply parsePRI_ok_advances in E. lia.
  - apply parsePRI_invalid_keeps in E. lia.
Qed.

Lemma parsePRI_cursor_in_buffer_witness :
  exists r p v c,
    parsePRI (cstr "<13>") 0 (-1) = Some (r, p, v)
    /\ (0 <= p < length (cstr "<13>"))%nat
    /\ deref (cstr "<13>") p = Some c.
Proof.
  apply (parsePRI_cursor_in_buffer (cstr "<13>") 0 (-1)).
  - exists (list_ascii_of_string "<13>"). reflexivity.
  - simpl. lia.
Defined.

(** X13: [parsePRI] looks at nothing before the cursor: parsing at the end
    of a prefix [pre] is parsing the rest from its start, with the cursor
    moved by the length of [pre]. *)
Theorem parsePRI_at_offset (pre s : list uchar) (piPri : Z) :
  parsePRI (pre ++ s) (length pre) piPri =
  match parsePRI s 0 piPri with
  | Some (r, p, v) => Some (r, (length pre + p)%nat, v)
  | None => None
  end.
Proof.
  rewrite !parsePRI_at.
  rewrite skipn_app, Nat.sub_diag, skipn_all. cbn [skipn app].
  destruct s as [|c0 t]; [reflexivity|].
  destruct (negb (Ascii.eqb c0 "<")); [do 3 f_equal; lia|].
  destruct (negb (starts_with_digit t)).
  { destruct t; [reflexivity|]. do 3 f_equal; lia. }
  destruct (after_digits t) as [|c r]; [reflexivity|].
  destruct (negb (Ascii.eqb c ">")); do 3 f_equal; lia.
Qed.
